(** * docker-runner: a shallow embedding of the deployment agent

    The repository holds two variants of the same agent:
    - [src/docker-runner.js], the legacy variant, which shells out to the
      [docker] command line and parses its textual output ([Module Legacy]);
    - the runtime-API variant built on [dockerode-promise] ([Module Api]).

    Both are translated function by function.  The container runtime, the
    HTTP client and the console are external: they are modelled as a
    capability record over an abstract world, so that every theorem holds
    for every runtime, and a small simulated daemon is used to run the
    agent on concrete inputs. *)

From Stdlib Require Import ZArith List String Ascii Bool Lia DecimalString.
Import ListNotations.
Local Open Scope string_scope.
Local Open Scope Z_scope.

(* ===================================================================== *)
(** ** JavaScript values and built-ins used by the sources *)
(* ===================================================================== *)

Module Js.

(** Strings are sequences of code units; image references, tags and
    identifiers are ASCII, so a code unit is an [ascii]. *)

Definition chars (s : string) : list ascii := list_ascii_of_string s.

(** [s.indexOf(c)]: [None] stands for [-1]. *)
Definition indexOf (s sub : string) : option nat := index 0 sub s.

(** [s.substr(start, length)]. *)
Definition substr (s : string) (start len : nat) : string :=
  substring start len s.

(** [s.substr(start)]. *)
Definition substr_from (s : string) (start : nat) : string :=
  substring start (String.length s - start) s.

(** [arr.includes(x)] on an array of strings. *)
Definition includes (arr : list string) (x : string) : bool :=
  existsb (String.eqb x) arr.

(** [_.isEqual] on two arrays of strings. *)
Fixpoint isEqual (a b : list string) : bool :=
  match a, b with
  | [], [] => true
  | x :: a', y :: b' => String.eqb x y && isEqual a' b'
  | _, _ => false
  end.

(** Truthiness of a string value that may be [undefined]. *)
Definition truthy_str (v : option string) : bool :=
  match v with
  | None => false
  | Some s => negb (String.eqb s "")
  end.

(** The string held by a value already tested truthy. *)
Definition the (v : option string) : string :=
  match v with Some s => s | None => "" end.

(** A string or [undefined] as string concatenation renders it. *)
Definition to_text (v : option string) : string :=
  match v with Some s => s | None => "undefined" end.

(** Truthiness of an object or array that may be [undefined]. *)
Definition truthy_obj {A : Type} (v : option A) : bool :=
  match v with None => false | Some _ => true end.

(** [a !== b] on values that are a string or [undefined]. *)
Definition strict_neq (a b : option string) : bool :=
  match a, b with
  | None, None => false
  | Some x, Some y => negb (String.eqb x y)
  | _, _ => true
  end.

(** *** [parseInt]

    A number is an integer or [NaN] ([None]); every value this program
    computes is far below 2^53, where doubles are exact. *)

Definition number := option Z.

Definition is_white (c : ascii) : bool :=
  let n := nat_of_ascii c in
  (Nat.eqb n 32 || (Nat.leb 9 n && Nat.leb n 13))%bool.

Fixpoint skip_white (l : list ascii) : list ascii :=
  match l with
  | c :: l' => if is_white c then skip_white l' else l
  | [] => []
  end.

(** Value of a digit character in bases up to 36. *)
Definition digit_val (c : ascii) : option Z :=
  let n := Z.of_nat (nat_of_ascii c) in
  if (48 <=? n) && (n <=? 57) then Some (n - 48)
  else if (97 <=? n) && (n <=? 122) then Some (n - 87)
  else if (65 <=? n) && (n <=? 90) then Some (n - 55)
  else None.

(** Longest prefix of radix-[r] digits, accumulated left to right;
    [seen] records whether at least one digit was read. *)
Fixpoint digits (r : Z) (l : list ascii) (acc : Z) (seen : bool) : number :=
  match l with
  | c :: l' =>
      match digit_val c with
      | Some d =>
          if d <? r then digits r l' (acc * r + d) true
          else if seen then Some acc else None
      | None => if seen then Some acc else None
      end
  | [] => if seen then Some acc else None
  end.

Definition strip_sign (l : list ascii) : Z * list ascii :=
  match l with
  | "-"%char :: l' => (-1, l')
  | "+"%char :: l' => (1, l')
  | _ => (1, l)
  end.

Definition strip_0x (l : list ascii) : option (list ascii) :=
  match l with
  | "0"%char :: "x"%char :: l' => Some l'
  | "0"%char :: "X"%char :: l' => Some l'
  | _ => None
  end.

(** [parseInt(s, radix)]; [radix = None] is the one-argument call. *)
Definition parseInt (s : string) (radix : option Z) : number :=
  let '(sign, l) := strip_sign (skip_white (chars s)) in
  let R := match radix with Some r => r | None => 0 end in
  if negb (R =? 0) && ((R <? 2) || (36 <? R)) then None
  else
    let stripPrefix := (R =? 0) || (R =? 16) in
    let R0 := if R =? 0 then 10 else R in
    let '(R1, l1) :=
      if stripPrefix then
        match strip_0x l with
        | Some l' => (16, l')
        | None => (R0, l)
        end
      else (R0, l) in
    option_map (Z.mul sign) (digits R1 l1 0 false).

(** [a % b] and [a + b] on numbers. *)
Definition rem (a : number) (b : Z) : number := option_map (fun x => Z.rem x b) a.
Definition add (a : number) (b : Z) : number := option_map (fun x => x + b) a.

End Js.

(* ===================================================================== *)
(** ** MD5, as computed by [crypto.createHash('md5')] (RFC 1321) *)
(* ===================================================================== *)

Module Md5.

Definition w32 (x : Z) : Z := x mod 2 ^ 32.

Definition rotl (x n : Z) : Z :=
  w32 (Z.lor (Z.shiftl x n) (Z.shiftr (w32 x) (32 - n))).

Definition lnot32 (x : Z) : Z := Z.lxor (w32 x) 0xffffffff.

Definition K : list Z :=
  [ 0xd76aa478; 0xe8c7b756; 0x242070db; 0xc1bdceee; 0xf57c0faf; 0x4787c62a;
    0xa8304613; 0xfd469501; 0x698098d8; 0x8b44f7af; 0xffff5bb1; 0x895cd7be;
    0x6b901122; 0xfd987193; 0xa679438e; 0x49b40821; 0xf61e2562; 0xc040b340;
    0x265e5a51; 0xe9b6c7aa; 0xd62f105d; 0x02441453; 0xd8a1e681; 0xe7d3fbc8;
    0x21e1cde6; 0xc33707d6; 0xf4d50d87; 0x455a14ed; 0xa9e3e905; 0xfcefa3f8;
    0x676f02d9; 0x8d2a4c8a; 0xfffa3942; 0x8771f681; 0x6d9d6122; 0xfde5380c;
    0xa4beea44; 0x4bdecfa9; 0xf6bb4b60; 0xbebfbc70; 0x289b7ec6; 0xeaa127fa;
    0xd4ef3085; 0x04881d05; 0xd9d4d039; 0xe6db99e5; 0x1fa27cf8; 0xc4ac5665;
    0xf4292244; 0x432aff97; 0xab9423a7; 0xfc93a039; 0x655b59c3; 0x8f0ccc92;
    0xffeff47d; 0x85845dd1; 0x6fa87e4f; 0xfe2ce6e0; 0xa3014314; 0x4e0811a1;
    0xf7537e82; 0xbd3af235; 0x2ad7d2bb; 0xeb86d391 ].

Definition S : list Z :=
  [ 7; 12; 17; 22; 7; 12; 17; 22; 7; 12; 17; 22; 7; 12; 17; 22;
    5; 9; 14; 20; 5; 9; 14; 20; 5; 9; 14; 20; 5; 9; 14; 20;
    4; 11; 16; 23; 4; 11; 16; 23; 4; 11; 16; 23; 4; 11; 16; 23;
    6; 10; 15; 21; 6; 10; 15; 21; 6; 10; 15; 21; 6; 10; 15; 21 ].

(** Little-endian encoding of a word on [n] bytes. *)
Fixpoint le_bytes (n : nat) (x : Z) : list Z :=
  match n with
  | O => []
  | Datatypes.S n' => x mod 256 :: le_bytes n' (x / 256)
  end.

Fixpoint le_word (bs : list Z) : Z :=
  match bs with
  | [] => 0
  | b :: bs' => b + 256 * le_word bs'
  end.

(** Padding: a [0x80] byte, zeros up to 56 mod 64, the bit length on
    eight bytes. *)
Definition pad (msg : list Z) : list Z :=
  let len := Z.of_nat (List.length msg) in
  let zeros := Z.to_nat ((55 - len) mod 64) in
  msg ++ [0x80] ++ repeat 0 zeros ++ le_bytes 8 ((8 * len) mod 2 ^ 64).

Fixpoint words (n : nat) (bs : list Z) : list Z :=
  match n with
  | O => []
  | Datatypes.S n' => le_word (firstn 4 bs) :: words n' (skipn 4 bs)
  end.

Record state := { sa : Z; sb : Z; sc : Z; sd : Z }.

Definition init : state :=
  {| sa := 0x67452301; sb := 0xefcdab89; sc := 0x98badcfe; sd := 0x10325476 |}.

Definition round (M : list Z) (st : state) (i : Z) : state :=
  let '(Build_state a b c d) := st in
  let '(f, g) :=
    if i <? 16 then (Z.lor (Z.land b c) (Z.land (lnot32 b) d), i)
    else if i <? 32 then (Z.lor (Z.land d b) (Z.land (lnot32 d) c), (5 * i + 1) mod 16)
    else if i <? 48 then (Z.lxor (Z.lxor b c) d, (3 * i + 5) mod 16)
    else (Z.lxor c (Z.lor b (lnot32 d)), (7 * i) mod 16) in
  let f' := w32 (f + a + nth (Z.to_nat i) K 0 + nth (Z.to_nat g) M 0) in
  {| sa := d; sd := c; sc := b;
     sb := w32 (b + rotl f' (nth (Z.to_nat i) S 0)) |}.

Definition rounds : list Z := map Z.of_nat (seq 0 64).

Definition block (st : state) (chunk : list Z) : state :=
  let M := words 16 chunk in
  let st' := fold_left (round M) rounds st in
  {| sa := w32 (sa st + sa st'); sb := w32 (sb st + sb st');
     sc := w32 (sc st + sc st'); sd := w32 (sd st + sd st') |}.

Fixpoint blocks (n : nat) (st : state) (bs : list Z) : state :=
  match n with
  | O => st
  | Datatypes.S n' => blocks n' (block st (firstn 64 bs)) (skipn 64 bs)
  end.

(** The sixteen bytes of the digest. *)
Definition digest (msg : list Z) : list Z :=
  let p := pad msg in
  let st := blocks (List.length p / 64) init p in
  le_bytes 4 (sa st) ++ le_bytes 4 (sb st) ++ le_bytes 4 (sc st) ++ le_bytes 4 (sd st).

Definition hex_digit (n : Z) : ascii :=
  if n <? 10 then ascii_of_nat (Z.to_nat (48 + n))
  else ascii_of_nat (Z.to_nat (87 + n)).

Definition hex_byte (b : Z) : list ascii := [hex_digit (b / 16); hex_digit (b mod 16)].

Definition hex (bs : list Z) : string :=
  string_of_list_ascii (flat_map hex_byte bs).

Definition bytes_of_string (s : string) : list Z :=
  map (fun c => Z.of_nat (nat_of_ascii c)) (Js.chars s).

(** [crypto.createHash('md5').update(s).digest('hex')]. *)
Definition md5_hex (s : string) : string := hex (digest (bytes_of_string s)).

(** The first sixteen bits of the digest, read big-endian as its first
    four hexadecimal characters are. *)
Definition first16 (s : string) : Z :=
  let d := digest (bytes_of_string s) in
  256 * nth 0 d 0 + nth 1 d 0.

End Md5.

(* ===================================================================== *)
(** ** The external world: runtime, console, HTTP client *)
(* ===================================================================== *)

(** A JavaScript [Error]; only its message matters here. *)
Record JsError := Error { message : string }.

(** Outcome of an [await]: the promise resolves or rejects. *)
Inductive Result (A : Type) :=
| Ok (a : A)
| Throw (e : JsError).
Arguments Ok {A} a.
Arguments Throw {A} e.

(** Parsed command line ([nomnom] options).  String and list options are
    [undefined] ([None]) when not given; flags are booleans.  The legacy
    variant declares [interactive] and lacks [env] and [authConfig]. *)
Record Options := {
  name : string;
  net : option string;
  volume : option (list string);
  env : option (list string);
  detach : bool;
  interactive : bool;
  tty : bool;
  restart : option (list string);
  image : string;
  authConfig : option string
}.

(** What [nomnom] reads off the command line, before its checks: an
    option that is not given is [undefined] ([None]); the flag [detach] is
    [true] when given as [--detach] and [false] when given as
    [--no-detach]. *)
Record Argv := {
  argv_name : option string;
  argv_net : option string;
  argv_volume : option (list string);
  argv_env : option (list string);
  argv_detach : option bool;
  argv_tty : option bool;
  argv_restart : option (list string);
  argv_image : option string;
  argv_authConfig : option string
}.

(** [.parse()] with the options the runtime-API variant declares: those
    marked [required: true] ([name], [detach], [image], in the order they
    are declared) must have a value; [nomnom] reports the first that has
    none and ends the process with status 1 ([inr] holds its name). *)
Definition parse (a : Argv) : Options + string :=
  match argv_name a with
  | None => inr "name"
  | Some n =>
      match argv_detach a with
      | None => inr "detach"
      | Some d =>
          match argv_image a with
          | None => inr "image"
          | Some i =>
              inl {| name := n; net := argv_net a; volume := argv_volume a;
                     env := argv_env a; detach := d; interactive := false;
                     tty := match argv_tty a with Some b => b | None => false end;
                     restart := argv_restart a; image := i;
                     authConfig := argv_authConfig a |}
          end
      end
  end.

(** How the process goes: [nomnom] ends it at once with a status, or the
    agent is started. *)
Inductive Outcome :=
| Exited (status : Z) (missing : string)
| Started.

(** What [docker.listImages()] reports for one image. *)
Record ImageRecord := { image_Id : string; image_RepoTags : list string }.

(** What [docker.listContainers()] reports for one container. *)
Record ContainerDescriptor := { container_Id : string; container_Names : list string }.

(** [container.inspect()]: only [State.Running] is read. *)
Record InspectOutput := { State_Running : bool }.

(** One event of a pull's progress stream. *)
Record ProgressEvent := {
  ev_status : option string;
  ev_progressDetail : option (Z * Z)
}.

(** The stream returned by [docker.pull]: the events it will deliver to
    [onProgress] and the error, if any, it hands to [onFinished]. *)
Record Stream := { stream_events : list ProgressEvent; stream_error : option JsError }.

Record CreateOptions := {
  co_Image : string;
  co_name : option string;
  co_Env : option (list string);
  co_Tty : option bool
}.

Record StartOptions := {
  so_NetworkMode : option string;
  so_Binds : option (list string);
  so_RestartPolicy : option string
}.

(** Inbound webhook request, with its body already parsed by [koa-body].
    Nothing checks the body: [repository] may be missing ([None]), and so
    may [repo_name] and [callback_url] ([None] also stands for a value
    that is not a string).  [req_url] is koa's [this.url]: the path with
    its query string, if any. *)
Record Repository := { repo_name : option string }.
Record Payload := { repository : option Repository; callback_url : option string }.
Record Request := { req_method : string; req_url : string; req_body : Payload }.

(** What the middleware does with a request: set a status and return, or
    [yield next]. *)
Inductive Response :=
| Status (code : Z)
| Next.

(** The capability interface of the container runtime and of the HTTP
    client, over an abstract world [W].  Every runtime operation may
    reject; [request] hands its error, if any, to its callback. *)
Record Docker (W : Type) := {
  listImages : W -> Result (list ImageRecord) * W;
  pull : string -> option string -> W -> Result Stream * W;
  createContainer : CreateOptions -> W -> Result string * W;
  container_start : string -> StartOptions -> W -> Result unit * W;
  listContainers : bool -> W -> Result (list ContainerDescriptor) * W;
  container_inspect : string -> W -> Result InspectOutput * W;
  container_stop : string -> W -> Result unit * W;
  container_remove : string -> W -> Result unit * W;
  image_remove : string -> W -> Result unit * W;
  request : option string -> string -> W -> option JsError * W
}.
Arguments listImages {W}.
Arguments pull {W}.
Arguments createContainer {W}.
Arguments container_start {W}.
Arguments listContainers {W}.
Arguments container_inspect {W}.
Arguments container_stop {W}.
Arguments container_remove {W}.
Arguments image_remove {W}.
Arguments request {W}.

(** The legacy variant reaches the runtime through [co-exec]. *)
Record Shell (W : Type) := { exec : string -> W -> Result string * W }.
Arguments exec {W}.

(** Calls that leave the process, in the order they are issued. *)
Inductive Call :=
| CListImages
| CPull (ref : string) (authconfig : option string)
| CCreateContainer (o : CreateOptions)
| CStart (id : string) (o : StartOptions)
| CListContainers (all : bool)
| CInspect (id : string)
| CStop (id : string)
| CRemove (id : string)
| CImageRemove (id : string)
| CRequest (url : option string) (state : string)
| CListen (port : Js.number)
| CExec (cmd : string).

(** Lines written with [console.log] and [console.error]. *)
Inductive ConsoleLine :=
| Log (s : string)
| LogError (e : JsError).

(** Program state: the world, and what the process has emitted so far. *)
Record State (W : Type) := {
  world : W;
  calls : list Call;
  console : list ConsoleLine
}.
Arguments world {W}.
Arguments calls {W}.
Arguments console {W}.
Arguments Build_State {W}.

Definition start_state {W : Type} (w : W) : State W :=
  {| world := w; calls := []; console := [] |}.

(* ===================================================================== *)
(** ** The monad of asynchronous functions *)
(* ===================================================================== *)

Definition M (W A : Type) : Type := State W -> Result A * State W.

Definition ret {W A} (a : A) : M W A := fun st => (Ok a, st).

Definition bind {W A B} (m : M W A) (k : A -> M W B) : M W B :=
  fun st =>
    match m st with
    | (Ok a, st') => k a st'
    | (Throw e, st') => (Throw e, st')
    end.

Definition throw {W A} (e : JsError) : M W A := fun st => (Throw e, st).

(** [try { body } finally { fin }]. *)
Definition try_finally {W A} (body : M W A) (fin : M W unit) : M W A :=
  fun st =>
    let '(r, st1) := body st in
    match fin st1 with
    | (Ok _, st2) => (r, st2)
    | (Throw e, st2) => (Throw e, st2)
    end.

(** [try { body } catch (e) { handler(e) }]. *)
Definition try_catch {W A} (body : M W A) (handler : JsError -> M W A) : M W A :=
  fun st =>
    match body st with
    | (Ok a, st') => (Ok a, st')
    | (Throw e, st') => handler e st'
    end.

Declare Scope js_scope.
Delimit Scope js_scope with js.
Notation "x <- m ;; k" := (bind m (fun x => k))
  (at level 100, m at next level, right associativity) : js_scope.
Notation "m ;; k" := (bind m (fun _ => k))
  (at level 100, right associativity) : js_scope.
Local Open Scope js_scope.

(** [for (let x of l) { body(x) }]. *)
Fixpoint for_of {W A} (l : list A) (body : A -> M W unit) : M W unit :=
  match l with
  | [] => ret tt
  | x :: l' => body x ;; for_of l' body
  end.

Definition console_log {W} (s : string) : M W unit :=
  fun st => (Ok tt, {| world := world st; calls := calls st;
                       console := console st ++ [Log s] |}).

Definition console_error {W} (e : JsError) : M W unit :=
  fun st => (Ok tt, {| world := world st; calls := calls st;
                       console := console st ++ [LogError e] |}).

(** A call to the outside: it is recorded, then the world answers. *)
Definition call {W A} (c : Call) (op : W -> A * W) : State W -> A * State W :=
  fun st =>
    let '(r, w') := op (world st) in
    (r, {| world := w'; calls := calls st ++ [c]; console := console st |}).

Definition WEBHOOK_URL : string := "/v1/docker-images/push".

Definition dquote : string := String (ascii_of_nat 34) EmptyString.

(** Decimal rendering of a number, as string concatenation does it. *)
Definition number_to_string (n : Js.number) : string :=
  match n with
  | Some z => DecimalString.NilZero.string_of_int (Z.to_int z)
  | None => "NaN"
  end.

(* ===================================================================== *)
(** ** The runtime-API variant *)
(* ===================================================================== *)

Module Api.
Section Agent.

Context {W : Type}.
Variable docker : Docker W.
Variable options : Options.

(** *** Runtime calls *)

Definition docker_listImages : M W (list ImageRecord) :=
  call CListImages (listImages docker).

Definition docker_pull (ref : string) (authconfig : option string) : M W Stream :=
  call (CPull ref authconfig) (pull docker ref authconfig).

Definition docker_createContainer (o : CreateOptions) : M W string :=
  call (CCreateContainer o) (createContainer docker o).

Definition docker_start (id : string) (o : StartOptions) : M W unit :=
  call (CStart id o) (container_start docker id o).

Definition docker_listContainers (all : bool) : M W (list ContainerDescriptor) :=
  call (CListContainers all) (listContainers docker all).

Definition docker_inspect (id : string) : M W InspectOutput :=
  call (CInspect id) (container_inspect docker id).

Definition docker_stop (id : string) : M W unit :=
  call (CStop id) (container_stop docker id).

Definition docker_remove (id : string) : M W unit :=
  call (CRemove id) (container_remove docker id).

Definition docker_image_remove (id : string) : M W unit :=
  call (CImageRemove id) (image_remove docker id).

(** [request({method: 'post', url, body: {state}, json: true}, cb)] with
    [cb = function(err) { if (err) console.error(err); }]. *)
Definition post_callback (url : option string) (state : string) : M W unit :=
  fun st =>
    match call (CRequest url state) (request docker url state) st with
    | (Some err, st') => console_error err st'
    | (None, st') => (Ok tt, st')
    end.

(** *** [getImageName] *)
Definition getImageName : string :=
  let name := image options in
  match Js.indexOf name ":" with
  | Some index => Js.substr name 0 index
  | None => name
  end.

(** *** [getImageId] *)
Definition getImageId : M W (option string) :=
  images <- docker_listImages ;;
  let image := find (fun im => Js.includes (image_RepoTags im) (image options))
                    images in
  ret (option_map image_Id image).

(** *** [awaitStream]: the [onProgress] and [onFinished] callbacks handed
    to [followProgress] *)
Definition onProgress (event : ProgressEvent) : M W unit :=
  if Js.truthy_obj (ev_progressDetail event) then ret tt
  else if Js.truthy_str (ev_status event)
       then console_log (Js.the (ev_status event))
       else ret tt.

Definition awaitStream (stream : Stream) : M W (list ProgressEvent) :=
  for_of (stream_events stream) onProgress ;;
  match stream_error stream with
  | Some err => throw err
  | None => ret (stream_events stream)
  end.

(** *** [pullImage] *)

(** [opts.authconfig.key], set only when [options.authConfig] is truthy. *)
Definition pull_opts : option string :=
  if Js.truthy_str (authConfig options) then authConfig options else None.

Definition pullImage : M W bool :=
  try_finally
    (previousId <- getImageId ;;
     let opts := pull_opts in
     stream <- docker_pull (image options) opts ;;
     awaitStream stream ;;
     currentId <- getImageId ;;
     ret (Js.strict_neq currentId previousId))
    (console_log "pullImage: done").

(** *** [runImage] *)
Definition createOptions : CreateOptions :=
  {| co_Image := image options;
     co_name := if Js.truthy_str (Some (name options)) then Some (name options) else None;
     co_Env := env options;
     co_Tty := if tty options then Some true else None |}.

Definition startOptions : StartOptions :=
  {| so_NetworkMode := if Js.truthy_str (net options) then net options else None;
     so_Binds := volume options;
     so_RestartPolicy :=
       match restart options with
       | Some r => if Js.includes r "always" then Some "always" else None
       | None => None
       end |}.

Definition runImage : M W unit :=
  try_finally
    (if negb (detach options) then throw (Error "non detached mode is unsupported")
     else
       container <- docker_createContainer createOptions ;;
       docker_start container startOptions)
    (console_log "runImage: done").

(** *** [removeOldImages] *)
Definition removeOldImages : M W unit :=
  try_finally
    (images <- docker_listImages ;;
     let images := filter (fun image => Js.isEqual (image_RepoTags image) ["<none>:<none>"])
                          images in
     for_of images (fun image =>
       try_catch
         (docker_image_remove (image_Id image) ;;
          console_log ("Image " ++ image_Id image ++ " removed"))
         (fun err => console_error err)))
    (console_log "removeOldImages: done").

(** *** [getContainerId] *)
Definition getContainerId (name : string) : M W (option string) :=
  containers <- docker_listContainers true ;;
  let container := find (fun container =>
                           Js.includes (container_Names container) ("/" ++ name))
                        containers in
  ret (option_map container_Id container).

(** *** [stopContainer] *)
Definition stopContainer : M W unit :=
  try_finally
    (id <- getContainerId (name options) ;;
     if negb (Js.truthy_str id) then ret tt
     else
       let container := Js.the id in
       output <- docker_inspect container ;;
       if negb (State_Running output) then ret tt
       else docker_stop container)
    (console_log "stopContainer: done").

(** *** [removeContainer] *)
Definition removeContainer : M W unit :=
  try_finally
    (id <- getContainerId (name options) ;;
     if negb (Js.truthy_str id) then ret tt
     else
       let container := Js.the id in
       docker_remove container)
    (console_log "removeContainer: done").

(** *** [check] *)
Definition check : M W unit :=
  changed <- pullImage ;;
  if changed then
    stopContainer ;;
    removeContainer ;;
    runImage ;;
    removeOldImages
  else ret tt.

(** *** [determineImagePort] *)
Definition determineImagePort : Js.number :=
  let hash := Md5.md5_hex (image options) in
  let port := Js.parseInt ("0x" ++ Js.substr hash 0 4) (Some 16) in
  let port := Js.add (Js.rem port 16384) 49152 in
  port.

(** *** The middleware installed by [listenImagePush], on one request *)
Definition mismatch_error (repoName name : string) : JsError :=
  Error ("webhook triggered for a different image name (" ++ dquote ++ repoName
         ++ dquote ++ " instead of " ++ dquote ++ name ++ dquote ++ ")").

(** Reading [repo_name] off a missing [payload.repository] is a
    [TypeError]; it is raised before the [try] of the middleware. *)
Definition TypeError_repo_name : JsError :=
  Error "Cannot read property 'repo_name' of undefined".

Definition webhook (req : Request) : M W Response :=
  if String.eqb (req_method req) "POST" && String.eqb (req_url req) WEBHOOK_URL then
    let payload := req_body req in
    match repository payload with
    | None => throw TypeError_repo_name
    | Some repository =>
        let repoName := repo_name repository in
        let name := getImageName in
        let err := if Js.strict_neq repoName (Some name)
                   then Some (mismatch_error (Js.to_text repoName) name) else None in
        err <- match err with
               | None => try_catch (check ;; ret None) (fun e => ret (Some e))
               | Some _ => ret err
               end ;;
        match err with Some e => console_error e | None => ret tt end ;;
        let callbackURL := callback_url payload in
        let state := match err with Some _ => "error" | None => "success" end in
        post_callback callbackURL state ;;
        ret (Status 204)
    end
  else ret Next.

(** *** [listenImagePush]: binds the derived port *)
Definition listenImagePush : M W unit :=
  let port := determineImagePort in
  fun st =>
    console_log ("listenImagePush: running on http://<domain.name>:"
                 ++ number_to_string port ++ WEBHOOK_URL)
      {| world := world st; calls := calls st ++ [CListen port]; console := console st |}.

(** *** [main] *)
Definition main : M W unit :=
  check ;;
  id <- getContainerId (name options) ;;
  (if negb (Js.truthy_str id) then runImage else ret tt) ;;
  match restart options with
  | Some r => if Js.includes r "image-push" then listenImagePush else ret tt
  | None => ret tt
  end.

(** [main().catch(function(err) { console.error(err); })]. *)
Definition run : M W unit := try_catch main (fun err => console_error err).

End Agent.

(** The script as a whole: parse the command line, then
    [main().catch(...)].  What [nomnom] prints when it ends the process is
    its own text and is left out. *)
Definition program {W : Type} (docker : Docker W) (argv : Argv)
  : State W -> Outcome * State W :=
  fun st =>
    match parse argv with
    | inr missing => (Exited 1 missing, st)
    | inl options => (Started, snd (run docker options st))
    end.

End Api.

(* ===================================================================== *)
(** ** The legacy shell-parsing variant ([src/docker-runner.js]) *)
(* ===================================================================== *)

Module Legacy.

(** A row of a parsed table: column header to cell. *)
Definition Row := list (string * string).

Fixpoint row_get (r : Row) (col : string) : option string :=
  match r with
  | [] => None
  | (k, v) :: r' => if String.eqb k col then Some v else row_get r' col
  end.

(** [_.find(rows, props)]: the first row whose columns equal every
    property of [props]. *)
Definition row_matches (props : Row) (r : Row) : bool :=
  forallb (fun kv => match row_get r (fst kv) with
                     | Some v => String.eqb v (snd kv)
                     | None => false
                     end) props.

Definition lodash_find (rows : list Row) (props : Row) : option Row :=
  find (row_matches props) rows.

Section Agent.

Context {W : Type}.
Variable shell : Shell W.
(** [node-shell-parser], applied with [{ separator: '  ' }]. *)
Variable shellParser : string -> list Row.
Variable options : Options.

Definition co_exec (cmd : string) : M W string :=
  call (CExec cmd) (exec shell cmd).

(** *** [getImageName] *)
Definition getImageName : string :=
  let name := image options in
  match Js.indexOf name ":" with
  | Some index => Js.substr name 0 index
  | None => name
  end.

(** *** [getImageTag] *)
Definition getImageTag : string :=
  let name := image options in
  match Js.indexOf name ":" with
  | Some index => Js.substr_from name (index + 1)
  | None => "latest"
  end.

(** *** [getImageId] *)
Definition getImageId : M W (option string) :=
  output <- co_exec "docker images --no-trunc" ;;
  let output := shellParser output in
  let output := lodash_find output [("REPOSITORY", getImageName); ("TAG", getImageTag)] in
  match output with
  | None => ret None
  | Some row => ret (row_get row "IMAGE ID")
  end.

(** *** [pullImage] *)
Definition pullImage : M W bool :=
  try_finally
    (previousId <- getImageId ;;
     co_exec ("docker pull " ++ image options) ;;
     currentId <- getImageId ;;
     ret (Js.strict_neq currentId previousId))
    (console_log "pullImage: done").

(** *** [determineImagePort] *)
Definition determineImagePort : Js.number :=
  let hash := Md5.md5_hex (image options) in
  let port := Js.parseInt ("0x" ++ Js.substr hash 0 4) None in
  let port := Js.add (Js.rem port 16384) 49152 in
  port.

(** *** The rest of the legacy agent *)

(** [JSON.parse] on the output of [docker inspect]: an array of container
    descriptions, or a [SyntaxError]. *)
Variable JSON_parse : string -> Result (list InspectOutput).

(** The [request] HTTP client: it hands its error, if any, to its
    callback. *)
Variable http : option string -> string -> W -> option JsError * W.

(** *** [runImage]: the command line it builds, then its run *)
Definition run_cmd : string :=
  let cmd := "docker run" in
  let cmd := if Js.truthy_str (Some (name options))
             then cmd ++ " --name=" ++ name options else cmd in
  let cmd := if Js.truthy_str (net options)
             then cmd ++ " --net=" ++ Js.the (net options) else cmd in
  let cmd := match volume options with
             | Some volumes =>
                 fold_left (fun cmd volume => cmd ++ " --volume=" ++ volume) volumes cmd
             | None => cmd
             end in
  let cmd := if detach options then cmd ++ " --detach" else cmd in
  let cmd := if interactive options then cmd ++ " --interactive" else cmd in
  let cmd := if tty options then cmd ++ " --tty" else cmd in
  let cmd := match restart options with
             | Some r => if Js.includes r "always" then cmd ++ " --restart=always" else cmd
             | None => cmd
             end in
  cmd ++ " " ++ image options.

Definition runImage : M W unit :=
  try_finally
    (co_exec run_cmd ;; ret tt)
    (console_log "runImage: done").

(** *** [getContainerId] *)
Definition getContainerId (name : string) : M W (option string) :=
  output <- co_exec "docker ps --all --no-trunc" ;;
  let output := shellParser output in
  let output := lodash_find output [("NAMES", name)] in
  match output with
  | None => ret None
  | Some row => ret (row_get row "CONTAINER ID")
  end.

(** *** [inspectContainer]: [output[0]] is [undefined] on an empty array *)
Definition inspectContainer (id : string) : M W (option InspectOutput) :=
  output <- co_exec ("docker inspect " ++ id) ;;
  match JSON_parse output with
  | Throw e => throw e
  | Ok output => ret (nth_error output 0)
  end.

(** Reading [container.State] off [undefined] is a [TypeError]. *)
Definition TypeError_State : JsError :=
  Error "Cannot read property 'State' of undefined".

(** *** [stopContainer] *)
Definition stopContainer : M W unit :=
  try_finally
    (id <- getContainerId (name options) ;;
     if negb (Js.truthy_str id) then ret tt
     else
       container <- inspectContainer (Js.the id) ;;
       match container with
       | None => throw TypeError_State
       | Some container =>
           if negb (State_Running container) then ret tt
           else co_exec ("docker stop " ++ Js.the id) ;; ret tt
       end)
    (console_log "stopContainer: done").

(** *** [removeContainer] *)
Definition removeContainer : M W unit :=
  try_finally
    (id <- getContainerId (name options) ;;
     if negb (Js.truthy_str id) then ret tt
     else co_exec ("docker rm " ++ Js.the id) ;; ret tt)
    (console_log "removeContainer: done").

(** The pass both [main] and the webhook run inline. *)
Definition redeploy : M W unit :=
  changed <- pullImage ;;
  if changed then
    stopContainer ;;
    removeContainer ;;
    runImage
  else ret tt.

Definition post_callback (url : option string) (state : string) : M W unit :=
  fun st =>
    match call (CRequest url state) (http url state) st with
    | (Some err, st') => console_error err st'
    | (None, st') => (Ok tt, st')
    end.

(** *** The middleware installed by [listenImagePush], on one request *)
Definition webhook (req : Request) : M W Response :=
  if String.eqb (req_method req) "POST" && String.eqb (req_url req) WEBHOOK_URL then
    let payload := req_body req in
    match repository payload with
    | None => throw Api.TypeError_repo_name
    | Some repository =>
        let repoName := repo_name repository in
        let name := getImageName in
        let err := if Js.strict_neq repoName (Some name)
                   then Some (Api.mismatch_error (Js.to_text repoName) name) else None in
        err <- match err with
               | None => try_catch (redeploy ;; ret None) (fun e => ret (Some e))
               | Some _ => ret err
               end ;;
        match err with Some e => console_error e | None => ret tt end ;;
        let callbackURL := callback_url payload in
        let state := match err with Some _ => "error" | None => "success" end in
        post_callback callbackURL state ;;
        ret (Status 204)
    end
  else ret Next.

(** *** [listenImagePush]: binds the derived port *)
Definition listenImagePush : M W unit :=
  let port := determineImagePort in
  fun st =>
    console_log ("listenImagePush: running on http://<domain.name>:"
                 ++ number_to_string port ++ WEBHOOK_URL)
      {| world := world st; calls := calls st ++ [CListen port]; console := console st |}.

(** *** [main]; [_.contains(undefined, x)] is [false] *)
Definition main : M W unit :=
  redeploy ;;
  match restart options with
  | Some r => if Js.includes r "image-push" then listenImagePush else ret tt
  | None => ret tt
  end.

End Agent.
End Legacy.

(* ===================================================================== *)
(** ** A simulated daemon, to run the agent on concrete inputs *)
(* ===================================================================== *)

Module Sim.

Record Container := { c_desc : ContainerDescriptor; c_running : bool }.

Record World := {
  images : list ImageRecord;
  containers : list Container;
  (** what the registry serves: tagged reference to image id *)
  registry : list (string * string);
  next_container : nat;
  (** failure injection *)
  pull_rejects : option JsError;
  stream_fails : option JsError;
  create_rejects : option JsError;
  undeletable : list string;
  callback_fails : option JsError
}.

Definition with_images (w : World) (l : list ImageRecord) : World :=
  {| images := l; containers := containers w; registry := registry w;
     next_container := next_container w; pull_rejects := pull_rejects w;
     stream_fails := stream_fails w; create_rejects := create_rejects w;
     undeletable := undeletable w; callback_fails := callback_fails w |}.

Definition with_containers (w : World) (l : list Container) (n : nat) : World :=
  {| images := images w; containers := l; registry := registry w;
     next_container := n; pull_rejects := pull_rejects w;
     stream_fails := stream_fails w; create_rejects := create_rejects w;
     undeletable := undeletable w; callback_fails := callback_fails w |}.

(** The daemon records tags in full: a reference without a tag names
    [:latest]. *)
Definition full_ref (ref : string) : string :=
  match Js.indexOf ref ":" with
  | Some _ => ref
  | None => ref ++ ":latest"
  end.

Fixpoint assoc (l : list (string * string)) (k : string) : option string :=
  match l with
  | [] => None
  | (k', v) :: l' => if String.eqb k k' then Some v else assoc l' k
  end.

Definition untag (tag : string) (im : ImageRecord) : ImageRecord :=
  let tags := filter (fun t => negb (String.eqb t tag)) (image_RepoTags im) in
  {| image_Id := image_Id im;
     image_RepoTags := match tags with [] => ["<none>:<none>"] | _ => tags end |}.

Definition retag (tag id : string) (im : ImageRecord) : ImageRecord :=
  if String.eqb (image_Id im) id then
    if Js.includes (image_RepoTags im) tag then im
    else {| image_Id := id;
            image_RepoTags :=
              tag :: filter (fun t => negb (String.eqb t "<none>:<none>"))
                            (image_RepoTags im) |}
  else if Js.includes (image_RepoTags im) tag then untag tag im
  else im.

Definition pulled (l : list ImageRecord) (tag id : string) : list ImageRecord :=
  let l' := map (retag tag id) l in
  if existsb (fun im => String.eqb (image_Id im) id) l then l'
  else l' ++ [{| image_Id := id; image_RepoTags := [tag] |}].

Definition sim_pull (ref : string) (auth : option string) (w : World)
  : Result Stream * World :=
  match pull_rejects w with
  | Some e => (Throw e, w)
  | None =>
      match assoc (registry w) (full_ref ref) with
      | None => (Throw (Error "not found"), w)
      | Some id =>
          (Ok {| stream_events :=
                   [ {| ev_status := Some ("Pulling from " ++ ref);
                        ev_progressDetail := None |};
                     {| ev_status := Some "Downloading";
                        ev_progressDetail := Some (1, 2) |};
                     {| ev_status := Some "Pull complete";
                        ev_progressDetail := None |} ];
                 stream_error := stream_fails w |},
           match stream_fails w with
           | Some _ => w
           | None => with_images w (pulled (images w) (full_ref ref) id)
           end)
      end
  end.

Definition has_name (n : string) (c : Container) : bool :=
  Js.includes (container_Names (c_desc c)) n.

Definition has_id (id : string) (c : Container) : bool :=
  String.eqb (container_Id (c_desc c)) id.

Definition sim_create (o : CreateOptions) (w : World) : Result string * World :=
  match create_rejects w with
  | Some e => (Throw e, w)
  | None =>
      let id := "c" ++ number_to_string (Some (Z.of_nat (next_container w))) in
      let nm := "/" ++ match co_name o with Some n => n | None => id end in
      if existsb (has_name nm) (containers w)
      then (Throw (Error "Conflict. The name is already in use"), w)
      else (Ok id,
            with_containers w
              (containers w ++
                 [{| c_desc := {| container_Id := id; container_Names := [nm] |};
                     c_running := false |}])
              (Datatypes.S (next_container w)))
  end.

Definition set_running (id : string) (b : bool) (c : Container) : Container :=
  if has_id id c then {| c_desc := c_desc c; c_running := b |} else c.

Definition sim_set (b : bool) (id : string) (w : World) : Result unit * World :=
  if existsb (has_id id) (containers w)
  then (Ok tt, with_containers w (map (set_running id b) (containers w))
                 (next_container w))
  else (Throw (Error "no such container"), w).

Definition sim_remove (id : string) (w : World) : Result unit * World :=
  match find (has_id id) (containers w) with
  | None => (Throw (Error "no such container"), w)
  | Some c =>
      if c_running c then (Throw (Error "cannot remove a running container"), w)
      else (Ok tt, with_containers w
                     (filter (fun c => negb (has_id id c)) (containers w))
                     (next_container w))
  end.

Definition sim_inspect (id : string) (w : World) : Result InspectOutput * World :=
  match find (has_id id) (containers w) with
  | None => (Throw (Error "no such container"), w)
  | Some c => (Ok {| State_Running := c_running c |}, w)
  end.

Definition sim_list_containers (all : bool) (w : World)
  : Result (list ContainerDescriptor) * World :=
  (Ok (map c_desc (filter (fun c => all || c_running c) (containers w))), w).

Definition sim_image_remove (id : string) (w : World) : Result unit * World :=
  if Js.includes (undeletable w) id
  then (Throw (Error ("conflict: unable to delete " ++ id)), w)
  else (Ok tt, with_images w
                 (filter (fun im => negb (String.eqb (image_Id im) id)) (images w))).

Definition docker : Docker World :=
  {| listImages := fun w => (Ok (images w), w);
     pull := sim_pull;
     createContainer := sim_create;
     container_start := fun id _ => sim_set true id;
     listContainers := sim_list_containers;
     container_inspect := sim_inspect;
     container_stop := sim_set false;
     container_remove := sim_remove;
     image_remove := sim_image_remove;
     request := fun _ _ w => (callback_fails w, w) |}.

(** The table [docker images --no-trunc] prints, already split by
    [node-shell-parser]: one row per tag. *)
Definition split_tag (t : string) : string * string :=
  match Js.indexOf t ":" with
  | Some i => (Js.substr t 0 i, Js.substr_from t (i + 1))
  | None => (t, "<none>")
  end.

Definition image_rows (im : ImageRecord) : list Legacy.Row :=
  map (fun t => [("REPOSITORY", fst (split_tag t)); ("TAG", snd (split_tag t));
                 ("IMAGE ID", image_Id im)])
      (image_RepoTags im).

(** The shell of the simulation answers with an empty text; the parser
    reads the table off the world instead.  Only [docker images] is
    simulated. *)
Definition shell : Shell World := {| exec := fun _ w => (Ok "", w) |}.

Definition images_table (l : list ImageRecord) : list Legacy.Row :=
  flat_map image_rows l.

(** An agent configuration: container [web] running [ref]. *)
Definition config (ref : string) (detached : bool) (policies : option (list string))
  : Options :=
  {| name := "web"; net := None; volume := None; env := None;
     detach := detached; interactive := false; tty := false;
     restart := policies; image := ref; authConfig := None |}.

Definition im_v1 : ImageRecord :=
  {| image_Id := "sha256:aaa"; image_RepoTags := ["myorg/app:v1"] |}.

Definition web_running : Container :=
  {| c_desc := {| container_Id := "c0"; container_Names := ["/web"] |};
     c_running := true |}.

Definition world0 (imgs : list ImageRecord) (cs : list Container)
           (reg : list (string * string)) : World :=
  {| images := imgs; containers := cs; registry := reg;
     next_container := 1;
     pull_rejects := None; stream_fails := None; create_rejects := None;
     undeletable := []; callback_fails := None |}.

End Sim.


(* ===================================================================== *)
(** ** Vocabulary of the properties *)
(* ===================================================================== *)

(** [emits P m]: whatever the world answers, [m] only appends calls that
    satisfy [P] to the record of calls. *)
Definition emits {W A : Type} (P : Call -> Prop) (m : M W A) : Prop :=
  forall st r st',
    m st = (r, st') -> exists new, calls st' = (calls st ++ new)%list /\ Forall P new.

(** [starts_with c P m]: the first call [m] issues is [c], whatever the
    world answers, and those that follow satisfy [P]. *)
Definition starts_with {W A : Type} (c : Call) (P : Call -> Prop) (m : M W A) : Prop :=
  forall st r st',
    m st = (r, st') ->
    exists new, calls st' = (calls st ++ c :: new)%list /\ Forall P new.

(** The state once [console.log(s)] has run. *)
Definition logged {W : Type} (s : string) (st : State W) : State W :=
  {| world := world st; calls := calls st; console := (console st ++ [Log s])%list |}.

(** Lifecycle mutations (stop, remove, create, start) and garbage
    collection (image removal). *)
Definition lifecycle_or_gc (c : Call) : bool :=
  match c with
  | CStop _ | CRemove _ | CCreateContainer _ | CStart _ _ | CImageRemove _ => true
  | _ => false
  end.

(** Creation or start of a container. *)
Definition creates_or_starts (c : Call) : bool :=
  match c with
  | CCreateContainer _ | CStart _ _ => true
  | _ => false
  end.

(** The dangling marker, decided by equality of tag lists. *)
Definition dangling (im : ImageRecord) : bool :=
  if list_eq_dec string_dec (image_RepoTags im) ["<none>:<none>"] then true else false.

(** What removing the images [ids] one after the other does to the world,
    and the console line each removal leaves: a confirmation, or the error
    the runtime answered. *)
Fixpoint collect_from {W : Type} (docker : Docker W) (ids : list string) (w : W)
  : list ConsoleLine * W :=
  match ids with
  | [] => ([], w)
  | id :: ids' =>
      let '(r, w1) := image_remove docker id w in
      let line := match r with
                  | Ok _ => Log ("Image " ++ id ++ " removed")
                  | Throw e => LogError e
                  end in
      let '(lines, w2) := collect_from docker ids' w1 in
      (line :: lines, w2)
  end.

(* ===================================================================== *)
(** ** Concrete runs on the simulated daemon *)
(* ===================================================================== *)

Module Scenario.

(** The agent supervises container [web] for image [myorg/app:v1]. *)
Definition cfg : Options := Sim.config "myorg/app:v1" true None.

(** The same agent started with the detach flag off. *)
Definition cfg_attached : Options := Sim.config "myorg/app:v1" false None.

(** An agent configured with a reference that carries no tag. *)
Definition cfg_untagged : Options := Sim.config "myorg/app" true None.

(** The registry serves a new build of [myorg/app:v1]; the old build is
    present and [web] runs it. *)
Definition world_new_build : Sim.World :=
  Sim.world0 [Sim.im_v1] [Sim.web_running] [("myorg/app:v1", "sha256:bbb")].

(** The registry serves the build that is already present. *)
Definition world_same_build : Sim.World :=
  Sim.world0 [Sim.im_v1] [Sim.web_running] [("myorg/app:v1", "sha256:aaa")].

(** As [world_new_build], with a runtime that refuses to create
    containers. *)
Definition world_create_fails : Sim.World :=
  {| Sim.images := [Sim.im_v1];
     Sim.containers := [Sim.web_running];
     Sim.registry := [("myorg/app:v1", "sha256:bbb")];
     Sim.next_container := 1;
     Sim.pull_rejects := None;
     Sim.stream_fails := None;
     Sim.create_rejects := Some (Error "no space left on device");
     Sim.undeletable := [];
     Sim.callback_fails := None |}.

(** Two dangling images, the first of which cannot be deleted, and one
    tagged image. *)
Definition world_dangling : Sim.World :=
  {| Sim.images :=
       [ {| image_Id := "sha256:d1"; image_RepoTags := ["<none>:<none>"] |};
         {| image_Id := "sha256:aaa"; image_RepoTags := ["myorg/app:v1"] |};
         {| image_Id := "sha256:d2"; image_RepoTags := ["<none>:<none>"] |} ];
     Sim.containers := [];
     Sim.registry := [];
     Sim.next_container := 1;
     Sim.pull_rejects := None;
     Sim.stream_fails := None;
     Sim.create_rejects := None;
     Sim.undeletable := ["sha256:d1"];
     Sim.callback_fails := None |}.

(** [myorg/app:latest] is present, [web] runs it, and the registry serves
    a newer build of it. *)
Definition world_latest : Sim.World :=
  Sim.world0 [{| image_Id := "sha256:ccc"; image_RepoTags := ["myorg/app:latest"] |}]
             [Sim.web_running] [("myorg/app:latest", "sha256:ddd")].


Definition push_ours : Request :=
  {| req_method := "POST"; req_url := WEBHOOK_URL;
     req_body := {| repository := Some {| repo_name := Some "myorg/app" |};
                    callback_url := Some "http://hub/cb" |} |}.



End Scenario.

(* ===================================================================== *)
(** ** Vocabulary of the further properties *)
(* ===================================================================== *)

(** The state once the world has answered the calls [cs] and become [w]. *)
Definition called {W : Type} (st : State W) (cs : list Call) (w : W) : State W :=
  {| world := w; calls := (calls st ++ cs)%list; console := console st |}.

(** The same configuration with another list of restart policies. *)
Definition set_restart (o : Options) (r : option (list string)) : Options :=
  {| name := name o; net := net o; volume := volume o; env := env o;
     detach := detach o; interactive := interactive o; tty := tty o;
     restart := r; image := image o; authConfig := authConfig o |}.

(** The status lines a progress stream shows: those of the events that
    carry no progress detail and a non-empty status. *)
Definition shown_statuses (events : list ProgressEvent) : list string :=
  flat_map (fun ev =>
              match ev_progressDetail ev, ev_status ev with
              | None, Some s => if String.eqb s "" then [] else [s]
              | _, _ => []
              end) events.

(** [c] is the binding of a listening port. *)
Definition is_listen (c : Call) : bool :=
  match c with CListen _ => true | _ => false end.

(** [c] is a command given to the shell. *)
Definition is_exec (c : Call) : bool :=
  match c with CExec _ => true | _ => false end.

(** Whether the configuration asks for the webhook listener. *)
Definition wants_listener (o : Options) : bool :=
  match restart o with
  | Some r => Js.includes r "image-push"
  | None => false
  end.

(** The words that follow [docker run] on the legacy command line, one
    per option that is set, and the words of a command joined by blanks. *)
Definition run_flags (o : Options) : list string :=
  ((if Js.truthy_str (Some (name o)) then [("--name=" ++ name o)%string] else [])
   ++ (if Js.truthy_str (net o) then [("--net=" ++ Js.the (net o))%string] else [])
   ++ map (fun volume => ("--volume=" ++ volume)%string)
          (match volume o with Some volumes => volumes | None => [] end)
   ++ (if detach o then ["--detach"] else [])
   ++ (if interactive o then ["--interactive"] else [])
   ++ (if tty o then ["--tty"] else [])
   ++ (if match restart o with Some r => Js.includes r "always" | None => false end
       then ["--restart=always"] else []))%list.

Fixpoint blank_joined (words : list string) : string :=
  match words with
  | [] => ""
  | w :: words' => " " ++ w ++ blank_joined words'
  end.

(* ===================================================================== *)
(** ** A simulated shell, to run the legacy variant on concrete inputs *)
(* ===================================================================== *)

Module LegacySim.

(** The world counts the pulls done so far; the registry holds a new
    build, so the image table changes with the first pull. *)
Definition World := nat.

Definition starts_with_text (p s : string) : bool := String.prefix p s.

Definition sim_exec (cmd : string) (w : World) : Result string * World :=
  if String.eqb cmd "docker images --no-trunc"
  then (Ok (if Nat.eqb w 0 then "IMAGES before" else "IMAGES after"), w)
  else if starts_with_text "docker pull " cmd then (Ok "", Datatypes.S w)
  else if String.eqb cmd "docker ps --all --no-trunc" then (Ok "PS", w)
  else if starts_with_text "docker inspect " cmd then (Ok "INSPECT", w)
  else (Ok "", w).

Definition shell : Shell World := {| exec := sim_exec |}.

(** What [node-shell-parser] makes of the three tables. *)
Definition shellParser (text : string) : list Legacy.Row :=
  if String.eqb text "IMAGES before"
  then [[("REPOSITORY", "myorg/app"); ("TAG", "v1"); ("IMAGE ID", "sha256:aaa")]]
  else if String.eqb text "IMAGES after"
  then [[("REPOSITORY", "myorg/app"); ("TAG", "v1"); ("IMAGE ID", "sha256:bbb")];
        [("REPOSITORY", "<none>"); ("TAG", "<none>"); ("IMAGE ID", "sha256:aaa")]]
  else if String.eqb text "PS"
  then [[("CONTAINER ID", "c0"); ("NAMES", "web")]]
  else [].

Definition JSON_parse (text : string) : Result (list InspectOutput) :=
  if String.eqb text "INSPECT" then Ok [{| State_Running := true |}]
  else Throw (Error "SyntaxError: Unexpected end of JSON input").

Definition http (url : option string) (state : string) (w : World)
  : option JsError * World := (None, w).

(** The agent of [Scenario.cfg], and one that supervises a container
    [docker ps] does not show. *)
Definition cfg : Options := Sim.config "myorg/app:v1" true None.

Definition cfg_absent : Options :=
  {| name := "absent"; net := None; volume := None; env := None;
     detach := true; interactive := false; tty := false;
     restart := None; image := "myorg/app:v1"; authConfig := None |}.

End LegacySim.

(** Further configurations and worlds for the runtime-API variant. *)
Module Scenario2.

(** A reference that names a registry with a port. *)
Definition cfg_registry_port : Options := Sim.config "localhost:5000/app:v1" true None.

(** The build is present and unchanged, and no container exists. *)
Definition world_no_container : Sim.World :=
  Sim.world0 [Sim.im_v1] [] [("myorg/app:v1", "sha256:aaa")].

(** The container [web] exists but is stopped. *)
Definition web_stopped : Sim.Container :=
  {| Sim.c_desc := {| container_Id := "c0"; container_Names := ["/web"] |};
     Sim.c_running := false |}.

Definition world_stopped : Sim.World :=
  Sim.world0 [Sim.im_v1] [web_stopped] [("myorg/app:v1", "sha256:aaa")].

(** The daemon cannot reach the registry: every pull is rejected. *)
Definition world_pull_fails : Sim.World :=
  {| Sim.images := [Sim.im_v1];
     Sim.containers := [Sim.web_running];
     Sim.registry := [("myorg/app:v1", "sha256:bbb")];
     Sim.next_container := 1;
     Sim.pull_rejects := Some (Error "connect ECONNREFUSED");
     Sim.stream_fails := None;
     Sim.create_rejects := None;
     Sim.undeletable := [];
     Sim.callback_fails := None |}.

(** A request on another path. *)
Definition get_root : Request :=
  {| req_method := "GET"; req_url := "/";
     req_body := {| repository := None; callback_url := None |} |}.

End Scenario2.
(* ===================================================================== *)
(** ** Facts about the built-ins *)
(* ===================================================================== *)

Lemma isEqual_eq (a b : list string) : Js.isEqual a b = true <-> a = b.
Proof.
  revert b. induction a as [|x a IH]; intros [|y b]; simpl; split;
    try congruence; try reflexivity.
  - intros H. apply andb_true_iff in H as [Hxy Hab].
    apply String.eqb_eq in Hxy. apply IH in Hab. congruence.
  - intros H. injection H as -> ->. rewrite String.eqb_refl. simpl.
    apply IH. reflexivity.
Qed.

Lemma includes_In (arr : list string) (x : string) :
  Js.includes arr x = true <-> In x arr.
Proof.
  unfold Js.includes. rewrite existsb_exists. split.
  - intros (y & Hin & Heq). apply String.eqb_eq in Heq. now subst.
  - intros Hin. exists x. split; [assumption | apply String.eqb_refl].
Qed.

Lemma strict_neq_true (a b : option string) : Js.strict_neq a b = true <-> a <> b.
Proof.
  destruct a as [x|], b as [y|]; simpl; split; try congruence; try tauto.
  - intros H Heq. injection Heq as ->. rewrite String.eqb_refl in H. discriminate.
  - intros H. destruct (String.eqb_spec x y); [subst; congruence | reflexivity].
Qed.

(** A hexadecimal digit is read back as its value. *)
Lemma digit_val_hex_digit (n : Z) :
  0 <= n < 16 -> Js.digit_val (Md5.hex_digit n) = Some n.
Proof.
  intros H.
  pose (ok := fun d => match Js.digit_val (Md5.hex_digit d) with
                       | Some v => v =? d
                       | None => false
                       end).
  assert (Hall : forallb ok (map Z.of_nat (seq 0 16)) = true) by reflexivity.
  rewrite forallb_forall in Hall.
  assert (Hin : In n (map Z.of_nat (seq 0 16))).
  { rewrite <- (Z2Nat.id n) by lia. apply in_map, in_seq. lia. }
  apply Hall in Hin. unfold ok in Hin.
  destruct (Js.digit_val (Md5.hex_digit n)) as [v|]; [| discriminate].
  apply Z.eqb_eq in Hin. congruence.
Qed.

(** Reading the two characters of a byte shifts the accumulator by 256. *)
Lemma digits_hex_byte (b acc : Z) (seen : bool) (l : list ascii) :
  0 <= b < 256 ->
  Js.digits 16 (Md5.hex_byte b ++ l) acc seen = Js.digits 16 l (acc * 256 + b) true.
Proof.
  intros Hb. unfold Md5.hex_byte. simpl.
  assert (H1 : 0 <= b / 16 < 16) by (split; [apply Z.div_pos | apply Z.div_lt_upper_bound]; lia).
  assert (H2 : 0 <= b mod 16 < 16) by (apply Z.mod_pos_bound; lia).
  rewrite (digit_val_hex_digit _ H1).
  destruct (Z.ltb_spec (b / 16) 16) as [_ | ?]; [| lia].
  rewrite (digit_val_hex_digit _ H2).
  destruct (Z.ltb_spec (b mod 16) 16) as [_ | ?]; [| lia].
  f_equal. pose proof (Z.div_mod b 16). lia.
Qed.

(** The digest starts with two bytes. *)
Lemma digest_head (msg : list Z) :
  exists b0 b1 rest,
    Md5.digest msg = b0 :: b1 :: rest /\ 0 <= b0 < 256 /\ 0 <= b1 < 256.
Proof.
  unfold Md5.digest.
  set (st := Md5.blocks _ _ _). simpl.
  eexists _, _, _. split; [reflexivity |].
  split; apply Z.mod_pos_bound; lia.
Qed.

(** On a string that starts with [0x], [parseInt] reads hexadecimal
    digits whether the radix is omitted or given as 16. *)
Lemma parseInt_0x (t : list ascii) (radix : option Z) :
  radix = None \/ radix = Some 16 ->
  Js.parseInt ("0x" ++ string_of_list_ascii t) radix
  = option_map (Z.mul 1) (Js.digits 16 t 0 false).
Proof.
  intros Hr. unfold Js.parseInt, Js.chars.
  change (list_ascii_of_string ("0x" ++ string_of_list_ascii t))
    with ("0"%char :: "x"%char :: list_ascii_of_string (string_of_list_ascii t)).
  rewrite list_ascii_of_string_of_list_ascii.
  destruct Hr as [-> | ->]; reflexivity.
Qed.

(** The first four characters of the hexadecimal digest spell the first
    sixteen bits of the digest. *)
Lemma parseInt_md5_prefix (s : string) (radix : option Z) :
  radix = None \/ radix = Some 16 ->
  Js.parseInt ("0x" ++ Js.substr (Md5.md5_hex s) 0 4) radix = Some (Md5.first16 s).
Proof.
  intros Hr. unfold Md5.md5_hex, Md5.first16, Md5.hex.
  destruct (digest_head (Md5.bytes_of_string s)) as (b0 & b1 & rest & -> & H0 & H1).
  cbn [flat_map nth].
  assert (Hsub : Js.substr (string_of_list_ascii
                     (Md5.hex_byte b0 ++ Md5.hex_byte b1 ++ flat_map Md5.hex_byte rest)) 0 4
                 = string_of_list_ascii (Md5.hex_byte b0 ++ Md5.hex_byte b1 ++ [])).
  { unfold Md5.hex_byte, Js.substr. simpl.
    destruct (string_of_list_ascii (flat_map _ rest)); reflexivity. }
  rewrite Hsub, (parseInt_0x _ _ Hr).
  rewrite (digits_hex_byte b0 0 false _ H0), (digits_hex_byte b1 _ true _ H1).
  cbn [Js.digits option_map]. f_equal. lia.
Qed.
Example md5_empty : Md5.md5_hex "" = "d41d8cd98f00b204e9800998ecf8427e".
Proof. vm_compute. reflexivity. Qed.

Example md5_abc : Md5.md5_hex "abc" = "900150983cd24fb0d6963f7d28e17f72".
Proof. vm_compute. reflexivity. Qed.

Example md5_two_blocks :
  Md5.md5_hex "aaaaaaaaaaaaaaaaaaaaaaaaaaaaaaaaaaaaaaaaaaaaaaaaaaaaaaaaaaaaaaaaaaaaaa"
  = "0f5c6c4e740bfcc08c3c26ccb2673d46".
Proof. vm_compute. reflexivity. Qed.

Example md5_image_ref : Md5.md5_hex "myorg/app:v1" = "595bdc9185183e51205c05700749f4cf".
Proof. vm_compute. reflexivity. Qed.

Lemma first16_range (s : string) : 0 <= Md5.first16 s < 65536.
Proof.
  unfold Md5.first16.
  destruct (digest_head (Md5.bytes_of_string s)) as (b0 & b1 & rest & -> & H0 & H1).
  cbn [nth]. lia.
Qed.

(* ===================================================================== *)
(** ** Port derivation *)
(* ===================================================================== *)

(** C4.  [determineImagePort] depends on the image reference alone: it is
    the first sixteen bits of the MD5 digest of the reference, taken modulo
    16384 and offset by 49152; the result is a number (never [NaN]) and
    lies in [49152, 65535]. *)
Theorem determineImagePort_deterministic_in_range (options : Options) :
  Api.determineImagePort options
  = Some (Md5.first16 (image options) mod 16384 + 49152)
  /\ 49152 <= Md5.first16 (image options) mod 16384 + 49152 <= 65535.
Proof.
  pose proof (first16_range (image options)) as Hr.
  split.
  - unfold Api.determineImagePort.
    rewrite parseInt_md5_prefix by (right; reflexivity).
    unfold Js.rem, Js.add, option_map.
    rewrite Z.rem_mod_nonneg by lia. reflexivity.
  - pose proof (Z.mod_pos_bound (Md5.first16 (image options)) 16384). lia.
Qed.

Example port_of_myorg_app_v1 :
  Api.determineImagePort (Sim.config "myorg/app:v1" true None) = Some 55643.
Proof. vm_compute. reflexivity. Qed.

(** C9.  The legacy variant calls [parseInt] without a radix, the
    runtime-API variant with radix 16; on the [0x]-prefixed digest prefix
    both read the same number, so the two derivations agree on every
    configuration. *)
Theorem determineImagePort_legacy_agrees (options : Options) :
  Legacy.determineImagePort options = Api.determineImagePort options.
Proof.
  unfold Legacy.determineImagePort, Api.determineImagePort.
  rewrite (parseInt_md5_prefix _ None) by (left; reflexivity).
  rewrite (parseInt_md5_prefix _ (Some 16)) by (right; reflexivity).
  reflexivity.
Qed.

(* ===================================================================== *)
(** ** Facts about the monad: which calls a computation may issue *)
(* ===================================================================== *)

Section MonadFacts.

Context {W : Type}.

Lemma emits_ret {A} P (a : A) : emits P (ret a : M W A).
Proof.
  intros st r st' [= <- <-]. exists []. now rewrite app_nil_r.
Qed.

Lemma emits_throw {A} P e : emits P (@throw W A e).
Proof.
  intros st r st' [= <- <-]. exists []. now rewrite app_nil_r.
Qed.

Lemma emits_console_log P s : emits P (@console_log W s).
Proof.
  intros st r st' [= <- <-]. exists []. simpl. now rewrite app_nil_r.
Qed.

Lemma emits_console_error P e : emits P (@console_error W e).
Proof.
  intros st r st' [= <- <-]. exists []. simpl. now rewrite app_nil_r.
Qed.

Lemma emits_call {A} (P : Call -> Prop) c (op : W -> Result A * W) :
  P c -> emits P (call c op).
Proof.
  intros Hc st r st'. unfold call. destruct (op (world st)) as [r0 w'].
  intros [= <- <-]. exists [c]. simpl. auto.
Qed.

Lemma emits_bind {A B} P (m : M W A) (k : A -> M W B) :
  emits P m -> (forall a, emits P (k a)) -> emits P (bind m k).
Proof.
  intros Hm Hk st r st'. unfold bind.
  destruct (m st) as [[a | e] s1] eqn:E; intros H.
  - destruct (Hm _ _ _ E) as (n1 & E1 & F1).
    destruct (Hk a _ _ _ H) as (n2 & E2 & F2).
    exists (n1 ++ n2)%list. rewrite E2, E1, app_assoc. split; [reflexivity |].
    apply Forall_app; auto.
  - injection H as <- <-. eauto.
Qed.

Lemma emits_try_finally {A} P (body : M W A) (fin : M W unit) :
  emits P body -> emits P fin -> emits P (try_finally body fin).
Proof.
  intros Hb Hf st r st'. unfold try_finally.
  destruct (body st) as [r1 s1] eqn:E1.
  destruct (Hb _ _ _ E1) as (n1 & X1 & F1).
  destruct (fin s1) as [[[] | e] s2] eqn:E2; intros [= <- <-];
    destruct (Hf _ _ _ E2) as (n2 & X2 & F2);
    exists (n1 ++ n2)%list; rewrite X2, X1, app_assoc;
    (split; [reflexivity | apply Forall_app; auto]).
Qed.

Lemma emits_try_catch {A} P (body : M W A) (handler : JsError -> M W A) :
  emits P body -> (forall e, emits P (handler e)) -> emits P (try_catch body handler).
Proof.
  intros Hb Hh st r st'. unfold try_catch.
  destruct (body st) as [[a | e] s1] eqn:E; intros H.
  - injection H as <- <-. eauto.
  - destruct (Hb _ _ _ E) as (n1 & E1 & F1).
    destruct (Hh e _ _ _ H) as (n2 & E2 & F2).
    exists (n1 ++ n2)%list. rewrite E2, E1, app_assoc. split; [reflexivity |].
    apply Forall_app; auto.
Qed.

Lemma emits_for_of {A} P (l : list A) (body : A -> M W unit) :
  (forall x, emits P (body x)) -> emits P (for_of l body).
Proof.
  intros Hb. induction l as [|x l IH]; simpl.
  - apply emits_ret.
  - apply emits_bind; auto.
Qed.

Lemma starts_with_call {A} (P : Call -> Prop) c (op : W -> Result A * W) :
  starts_with c P (call c op).
Proof.
  intros st r st'. unfold call. destruct (op (world st)) as [r0 w'].
  intros [= <- <-]. exists []. simpl. auto.
Qed.

Lemma starts_with_bind {A B} c P (m : M W A) (k : A -> M W B) :
  starts_with c P m -> (forall a, emits P (k a)) -> starts_with c P (bind m k).
Proof.
  intros Hm Hk st r st'. unfold bind.
  destruct (m st) as [[a | e] s1] eqn:E; intros H.
  - destruct (Hm _ _ _ E) as (n1 & E1 & F1).
    destruct (Hk a _ _ _ H) as (n2 & E2 & F2).
    exists (n1 ++ n2)%list. rewrite E2, E1, <- app_assoc. split; [reflexivity |].
    apply Forall_app; auto.
  - injection H as <- <-. eauto.
Qed.

Lemma starts_with_try_finally {A} c P (body : M W A) (fin : M W unit) :
  starts_with c P body -> emits P fin -> starts_with c P (try_finally body fin).
Proof.
  intros Hb Hf st r st'. unfold try_finally.
  destruct (body st) as [r1 s1] eqn:E1.
  destruct (Hb _ _ _ E1) as (n1 & X1 & F1).
  destruct (fin s1) as [[[] | e] s2] eqn:E2; intros [= <- <-];
    destruct (Hf _ _ _ E2) as (n2 & X2 & F2);
    exists (n1 ++ n2)%list; rewrite X2, X1, <- app_assoc;
    (split; [reflexivity | apply Forall_app; auto]).
Qed.

End MonadFacts.

(** One step of a proof that a computation stays within its calls. *)
Ltac emits_step :=
  match goal with
  | |- emits _ (if ?b then _ else _) => destruct b
  | |- emits _ (match ?x with _ => _ end) => destruct x
  | |- forall _, _ => intro
  | |- emits _ _ =>
      first [ apply emits_bind | apply emits_try_finally | apply emits_try_catch
            | apply emits_for_of | apply emits_ret | apply emits_throw
            | apply emits_console_log | apply emits_console_error
            | apply emits_call; solve [auto] ]
  end.

(* ===================================================================== *)
(** ** The runtime-API variant: which calls each function issues *)
(* ===================================================================== *)

Section ApiCalls.

Context {W : Type}.
Variable docker : Docker W.
Variable options : Options.
Variable P : Call -> Prop.

Lemma getImageId_emits :
  P CListImages -> emits P (Api.getImageId docker options).
Proof. intros. unfold Api.getImageId, Api.docker_listImages. repeat emits_step. Qed.

Lemma onProgress_emits event : emits P (Api.onProgress (W := W) event).
Proof. unfold Api.onProgress. repeat emits_step. Qed.

Lemma awaitStream_emits stream : emits P (Api.awaitStream (W := W) stream).
Proof.
  unfold Api.awaitStream. apply emits_bind.
  - apply emits_for_of, onProgress_emits.
  - intros _. destruct (stream_error stream); repeat emits_step.
Qed.

Lemma pullImage_emits :
  P CListImages -> (forall ref auth, P (CPull ref auth)) ->
  emits P (Api.pullImage docker options).
Proof.
  intros H1 H2. unfold Api.pullImage, Api.docker_pull.
  apply emits_try_finally; [| apply emits_console_log].
  apply emits_bind; [apply getImageId_emits; assumption | intros prev].
  apply emits_bind; [apply emits_call; auto | intros stream].
  apply emits_bind; [apply awaitStream_emits | intros _].
  apply emits_bind; [apply getImageId_emits; assumption | intros cur].
  apply emits_ret.
Qed.

Lemma getContainerId_emits n :
  P (CListContainers true) -> emits P (Api.getContainerId docker n).
Proof.
  intros. unfold Api.getContainerId, Api.docker_listContainers. repeat emits_step.
Qed.

Lemma stopContainer_emits :
  P (CListContainers true) -> (forall id, P (CInspect id)) -> (forall id, P (CStop id)) ->
  emits P (Api.stopContainer docker options).
Proof.
  intros H1 H2 H3. unfold Api.stopContainer, Api.docker_inspect, Api.docker_stop.
  apply emits_try_finally; [| apply emits_console_log].
  apply emits_bind; [apply getContainerId_emits; assumption | intros id].
  repeat emits_step.
Qed.

Lemma removeContainer_emits :
  P (CListContainers true) -> (forall id, P (CRemove id)) ->
  emits P (Api.removeContainer docker options).
Proof.
  intros H1 H2. unfold Api.removeContainer, Api.docker_remove.
  apply emits_try_finally; [| apply emits_console_log].
  apply emits_bind; [apply getContainerId_emits; assumption | intros id].
  repeat emits_step.
Qed.

Lemma runImage_emits :
  (forall o, P (CCreateContainer o)) -> (forall id o, P (CStart id o)) ->
  emits P (Api.runImage docker options).
Proof.
  intros H1 H2.
  unfold Api.runImage, Api.docker_createContainer, Api.docker_start.
  repeat emits_step.
Qed.

(** With the detach flag off, [runImage] issues no call at all. *)
Lemma runImage_not_detached_emits :
  detach options = false -> emits P (Api.runImage docker options).
Proof.
  intros Hd. unfold Api.runImage. rewrite Hd. simpl. repeat emits_step.
Qed.

Lemma removeOldImages_emits :
  P CListImages -> (forall id, P (CImageRemove id)) ->
  emits P (Api.removeOldImages docker).
Proof.
  intros H1 H2.
  unfold Api.removeOldImages, Api.docker_listImages, Api.docker_image_remove.
  repeat emits_step.
Qed.

End ApiCalls.

(* ===================================================================== *)
(** ** The runtime-API variant: image synchronisation *)
(* ===================================================================== *)

Section ApiSync.

Context {W : Type}.
Variable docker : Docker W.
Variable options : Options.

Local Abbreviation getImageId := (Api.getImageId docker options).
Local Abbreviation docker_pull := (Api.docker_pull docker).
Local Abbreviation awaitStream := (Api.awaitStream (W := W)).
Local Abbreviation pullImage := (Api.pullImage docker options).
Local Abbreviation pull_opts := (Api.pull_opts options).
Local Abbreviation check := (Api.check docker options).

(** Progress events only reach the console. *)
Lemma for_of_onProgress (events : list ProgressEvent) (st : State W) :
  exists st',
    for_of events (Api.onProgress (W := W)) st = (Ok tt, st')
    /\ world st' = world st /\ calls st' = calls st.
Proof.
  revert st. induction events as [|ev events IH]; intros st; simpl.
  - exists st. auto.
  - unfold bind.
    assert (Hev : exists s1, Api.onProgress ev st = (Ok tt, s1)
                             /\ world s1 = world st /\ calls s1 = calls st).
    { unfold Api.onProgress.
      destruct (Js.truthy_obj _); [exists st; auto |].
      destruct (Js.truthy_str _); [| exists st; auto].
      eexists. split; [reflexivity | auto]. }
    destruct Hev as (s1 & -> & Hw & Hc).
    destruct (IH s1) as (st' & -> & Hw' & Hc').
    exists st'. split; [reflexivity | split; congruence].
Qed.

(** [awaitStream] rejects exactly when the stream ends with an error. *)
Lemma awaitStream_result (stream : Stream) (st : State W) :
  exists st',
    awaitStream stream st
    = (match stream_error stream with
       | Some e => Throw e
       | None => Ok (stream_events stream)
       end, st')
    /\ world st' = world st /\ calls st' = calls st.
Proof.
  unfold Api.awaitStream, bind.
  destruct (for_of_onProgress (stream_events stream) st) as (s1 & -> & Hw & Hc).
  exists s1. destruct (stream_error stream); auto.
Qed.

(** C3.  Once the image id before the pull is resolved: a pull that the
    runtime rejects, or whose stream ends with an error, makes
    [pullImage] throw that error; otherwise [pullImage] returns [true]
    exactly when the id resolved after the pull differs from the id
    resolved before. *)
Theorem pullImage_reports_identity_change (st s1 : State W) (previousId : option string) :
  getImageId st = (Ok previousId, s1) ->
  (forall e s2,
      docker_pull (image options) pull_opts s1 = (Throw e, s2) ->
      pullImage st = (Throw e, logged "pullImage: done" s2))
  /\ (forall stream s2 e,
      docker_pull (image options) pull_opts s1 = (Ok stream, s2) ->
      stream_error stream = Some e ->
      exists s3, pullImage st = (Throw e, s3))
  /\ (forall stream s2 out s3 currentId s4,
      docker_pull (image options) pull_opts s1 = (Ok stream, s2) ->
      awaitStream stream s2 = (Ok out, s3) ->
      getImageId s3 = (Ok currentId, s4) ->
      exists changed,
        pullImage st = (Ok changed, logged "pullImage: done" s4)
        /\ (changed = true <-> currentId <> previousId)).
Proof.
  intros Hprev. split; [| split].
  - intros e s2 Hpull.
    unfold Api.pullImage, try_finally, bind. rewrite Hprev, Hpull. reflexivity.
  - intros stream s2 e Hpull Herr.
    destruct (awaitStream_result stream s2) as (s3 & Hawait & _).
    rewrite Herr in Hawait.
    unfold Api.pullImage, try_finally, bind. rewrite Hprev, Hpull, Hawait.
    eexists. reflexivity.
  - intros stream s2 out s3 currentId s4 Hpull Hawait Hcur.
    exists (Js.strict_neq currentId previousId). split.
    + unfold Api.pullImage, try_finally, bind.
      rewrite Hprev, Hpull, Hawait, Hcur. reflexivity.
    + apply strict_neq_true.
Qed.

End ApiSync.

(* ===================================================================== *)
(** ** The runtime-API variant: the reconciliation pass *)
(* ===================================================================== *)

Section ApiCheck.

Context {W : Type}.
Variable docker : Docker W.
Variable options : Options.

Local Abbreviation getImageId := (Api.getImageId docker options).
Local Abbreviation docker_pull := (Api.docker_pull docker).
Local Abbreviation awaitStream := (Api.awaitStream (W := W)).
Local Abbreviation pullImage := (Api.pullImage docker options).
Local Abbreviation pull_opts := (Api.pull_opts options).
Local Abbreviation stopContainer := (Api.stopContainer docker options).
Local Abbreviation removeContainer := (Api.removeContainer docker options).
Local Abbreviation runImage := (Api.runImage docker options).
Local Abbreviation removeOldImages := (Api.removeOldImages docker).
Local Abbreviation check := (Api.check docker options).

(** C1.  When [pullImage] reports a change, [check] is [stopContainer],
    [removeContainer], [runImage], [removeOldImages] run in that order,
    each from the state the previous one left; the first of them that
    throws ends the pass, and [check] throws that error from that state. *)
Theorem check_changed_runs_steps_in_order (st s1 : State W) :
  pullImage st = (Ok true, s1) ->
  check st =
    match stopContainer s1 with
    | (Throw e, s2) => (Throw e, s2)
    | (Ok _, s2) =>
        match removeContainer s2 with
        | (Throw e, s3) => (Throw e, s3)
        | (Ok _, s3) =>
            match runImage s3 with
            | (Throw e, s4) => (Throw e, s4)
            | (Ok _, s4) => removeOldImages s4
            end
        end
    end.
Proof.
  intros Hpull. unfold Api.check, bind. rewrite Hpull.
  destruct (stopContainer s1) as [[[] | e2] s2]; [| reflexivity].
  destruct (removeContainer s2) as [[[] | e3] s3]; [| reflexivity].
  destruct (runImage s3) as [[[] | e4] s4]; reflexivity.
Qed.

(** C2.  When [pullImage] reports no change, [check] returns at once in
    the state [pullImage] left, and none of the calls issued during the
    pass is a stop, remove, create, start or image removal. *)
Theorem check_unchanged_is_noop (st s1 : State W) :
  pullImage st = (Ok false, s1) ->
  check st = (Ok tt, s1)
  /\ exists new,
       calls s1 = (calls st ++ new)%list
       /\ Forall (fun c => lifecycle_or_gc c = false) new.
Proof.
  intros Hpull. split.
  - unfold Api.check, bind. rewrite Hpull. reflexivity.
  - apply (pullImage_emits docker options (fun c => lifecycle_or_gc c = false))
      with (r := Ok false); auto.
Qed.

(** C10.  When the lookup of the configured reference finds no image
    before the pull and none after it, although the pull itself went
    through, [pullImage] reports no change and [check] ends there: the
    only calls of the pass are the two listings and the pull. *)
Theorem pullImage_unresolved_ref_reports_unchanged
        (st s1 s2 s3 s4 : State W) (stream : Stream) (out : list ProgressEvent) :
  getImageId st = (Ok None, s1) ->
  docker_pull (image options) pull_opts s1 = (Ok stream, s2) ->
  awaitStream stream s2 = (Ok out, s3) ->
  getImageId s3 = (Ok None, s4) ->
  pullImage st = (Ok false, logged "pullImage: done" s4)
  /\ check st = (Ok tt, logged "pullImage: done" s4)
  /\ calls (logged "pullImage: done" s4)
     = (calls st ++ [CListImages; CPull (image options) pull_opts; CListImages])%list.
Proof.
  intros Hprev Hpull Hawait Hcur.
  assert (Hp : pullImage st = (Ok false, logged "pullImage: done" s4)).
  { unfold Api.pullImage, try_finally, bind.
    rewrite Hprev, Hpull, Hawait, Hcur. reflexivity. }
  split; [exact Hp | split].
  - unfold Api.check, bind. rewrite Hp. reflexivity.
  - destruct (awaitStream_result stream s2) as (s3' & Hawait' & _ & Hc3).
    rewrite Hawait in Hawait'. injection Hawait' as _ <-.
    unfold Api.getImageId, Api.docker_listImages, Api.docker_pull, bind, call, ret in *.
    destruct (listImages docker (world st)) as [[imgs0 | e0] w0]; [| discriminate].
    injection Hprev as _ <-.
    cbn [world calls] in Hpull.
    destruct (pull docker (image options) pull_opts w0) as [[strm | e1] w1]; [| discriminate].
    injection Hpull as _ <-.
    destruct (listImages docker (world s3)) as [[imgs1 | e2] w2]; [| discriminate].
    injection Hcur as _ <-.
    cbn [logged calls]. rewrite Hc3. cbn [calls].
    rewrite <- !app_assoc. reflexivity.
Qed.

(* ===================================================================== *)
(** ** The runtime-API variant: garbage collection *)
(* ===================================================================== *)

(** The filter of [removeOldImages] selects the dangling images. *)
Lemma isEqual_dangling (im : ImageRecord) :
  Js.isEqual (image_RepoTags im) ["<none>:<none>"] = dangling im.
Proof.
  unfold dangling.
  destruct (list_eq_dec string_dec (image_RepoTags im) ["<none>:<none>"]) as [E | N].
  - apply isEqual_eq. exact E.
  - destruct (Js.isEqual _ _) eqn:H; [| reflexivity].
    apply isEqual_eq in H. contradiction.
Qed.

(** The loop of [removeOldImages] never throws: it asks for the removal of
    every image it is given, in order, and logs each outcome. *)
Lemma removal_loop (l : list ImageRecord) (st : State W) :
  for_of l (fun image =>
      try_catch
        (Api.docker_image_remove docker (image_Id image) ;;
         console_log ("Image " ++ image_Id image ++ " removed"))%js
        (fun err => console_error err)) st
  = (Ok tt,
     {| world := snd (collect_from docker (map image_Id l) (world st));
        calls := calls st ++ map CImageRemove (map image_Id l);
        console := console st ++ fst (collect_from docker (map image_Id l) (world st)) |}).
Proof.
  revert st. induction l as [|im l IH]; intros st.
  - simpl. unfold ret. rewrite !app_nil_r. destruct st; reflexivity.
  - cbn [for_of map collect_from]. unfold bind at 1.
    unfold try_catch, bind, Api.docker_image_remove, call.
    destruct (image_remove docker (image_Id im) (world st)) as [[[] | e] w1];
      cbn [console_log console_error]; rewrite IH; cbn [world calls console];
      destruct (collect_from docker (map image_Id l) w1) as [lines w2];
      cbn [fst snd]; rewrite <- !app_assoc; reflexivity.
Qed.

(** C7.  Once the images are listed, [removeOldImages] returns normally
    whatever the removals answer; it asks for the removal of the images
    whose tag list is exactly the dangling marker, each once, in listing
    order, and of no other image; a removal that fails leaves its error on
    the console and the loop goes on with the next image. *)
Theorem removeOldImages_selective (st : State W) (images : list ImageRecord) (w1 : W) :
  listImages docker (world st) = (Ok images, w1) ->
  let ids := map image_Id (filter dangling images) in
  removeOldImages st
  = (Ok tt,
     {| world := snd (collect_from docker ids w1);
        calls := calls st ++ CListImages :: map CImageRemove ids;
        console := console st ++ fst (collect_from docker ids w1)
                     ++ [Log "removeOldImages: done"] |})
  /\ (forall id, In id ids <->
                 exists im, In im images /\ image_Id im = id
                            /\ image_RepoTags im = ["<none>:<none>"]).
Proof.
  intros Hlist ids. split.
  - unfold Api.removeOldImages, try_finally.
    unfold bind at 1. unfold Api.docker_listImages, call. rewrite Hlist.
    rewrite (filter_ext _ _ isEqual_dangling images).
    rewrite removal_loop. cbn [console_log world calls console].
    fold ids. rewrite <- !app_assoc. reflexivity.
  - intros id. unfold ids. rewrite in_map_iff. split.
    + intros (im & Hid & Hin). apply filter_In in Hin as [Hin Hd].
      exists im. repeat split; auto.
      unfold dangling in Hd. destruct (list_eq_dec _ _ _); [assumption | discriminate].
    + intros (im & Hin & Hid & Htags). exists im. split; [assumption |].
      apply filter_In. split; [assumption |].
      unfold dangling. destruct (list_eq_dec _ _ _); [reflexivity | contradiction].
Qed.

End ApiCheck.

(* ===================================================================== *)
(** ** The runtime-API variant: the webhook and the entry point *)
(* ===================================================================== *)

Section ApiEntry.

Context {W : Type}.
Variable docker : Docker W.
Variable options : Options.

Local Abbreviation runImage := (Api.runImage docker options).
Local Abbreviation check := (Api.check docker options).
Local Abbreviation getImageName := (Api.getImageName options).
Local Abbreviation webhook := (Api.webhook docker options).
Local Abbreviation main := (Api.main docker options).

Lemma check_emits (P : Call -> Prop) :
  P CListImages -> (forall ref auth, P (CPull ref auth)) ->
  P (CListContainers true) -> (forall id, P (CInspect id)) ->
  (forall id, P (CStop id)) -> (forall id, P (CRemove id)) ->
  (forall id, P (CImageRemove id)) ->
  emits P runImage -> emits P check.
Proof.
  intros. unfold Api.check.
  apply emits_bind; [apply pullImage_emits; assumption | intros [|]].
  - apply emits_bind; [apply stopContainer_emits; assumption | intros _].
    apply emits_bind; [apply removeContainer_emits; assumption | intros _].
    apply emits_bind; [assumption | intros _].
    apply removeOldImages_emits; assumption.
  - apply emits_ret.
Qed.



Lemma strict_neq_false (a b : option string) : Js.strict_neq a b = false <-> a = b.
Proof.
  destruct a as [x |], b as [y |]; simpl; split; try congruence; try reflexivity.
  - intros H. destruct (String.eqb_spec x y); [congruence | discriminate].
  - intros [= ->]. rewrite String.eqb_refl. reflexivity.
Qed.


(** A pass whose pull returns has listed the images, pulled and listed
    them again, and nothing else. *)
Lemma pullImage_returned_calls (st s1 : State W) (changed : bool) :
  Api.pullImage docker options st = (Ok changed, s1) ->
  calls s1
  = (calls st ++ [CListImages; CPull (image options) (Api.pull_opts options);
                  CListImages])%list.
Proof.
  unfold Api.pullImage, try_finally, Api.getImageId, Api.docker_listImages,
    Api.docker_pull. unfold bind at 1 2. unfold call at 1.
  destruct (listImages docker (world st)) as [[imgs | e] w1];
    cbn [ret world calls console console_log]; [| discriminate].
  unfold bind at 1. unfold call at 1. cbn [world calls console].
  destruct (pull docker (image options) (Api.pull_opts options) w1) as [[stream | e] w2];
    cbn [world calls console console_log]; [| discriminate].
  unfold bind at 1.
  match goal with
  | |- context [Api.awaitStream stream ?x] =>
      destruct (awaitStream_result stream x) as (s3 & -> & Hw & Hc)
  end.
  cbn [world calls] in Hw, Hc.
  destruct (stream_error stream) as [err |]; cbn [world calls console console_log];
    [discriminate |].
  unfold bind, call. rewrite Hw.
  destruct (listImages docker w2) as [[imgs2 | e] w3];
    cbn [ret world calls console console_log]; [| discriminate].
  intros [= _ <-]. cbn [calls]. rewrite Hc, <- !app_assoc. reflexivity.
Qed.

(** C6, as the code has it.  A command line without the detach flag ends
    at option parsing, with status 1 and before anything is asked of the
    runtime.  With the flag explicitly off, [runImage] throws before it
    asks the runtime for anything, so no run creates or starts a
    container; but nothing stops the agent at startup: [main] begins by
    listing the images, a pass whose pull returns has listed, pulled and
    listed again, and the error comes after [stopContainer] and
    [removeContainer] when the image changed, after the container lookup
    when it did not and no container exists, and not at all when it did
    not and the container exists. *)
Theorem detach_off_fails_only_at_runImage (st : State W) :
  (forall argv,
      argv_detach argv = None ->
      exists missing, Api.program docker argv st = (Exited 1 missing, st))
  /\ (detach options = false ->
      runImage st
      = (Throw (Error "non detached mode is unsupported"), logged "runImage: done" st)
      /\ (forall r st',
             main st = (r, st') ->
             exists new,
               calls st' = (calls st ++ CListImages :: new)%list
               /\ Forall (fun c => creates_or_starts c = false) new)
      /\ (forall changed s1,
             Api.pullImage docker options st = (Ok changed, s1) ->
             calls s1
             = (calls st ++ [CListImages; CPull (image options) (Api.pull_opts options);
                             CListImages])%list
             /\ if changed
                then forall s2 s3,
                    Api.stopContainer docker options s1 = (Ok tt, s2) ->
                    Api.removeContainer docker options s2 = (Ok tt, s3) ->
                    main st
                    = (Throw (Error "non detached mode is unsupported"),
                       logged "runImage: done" s3)
                else forall id s2,
                    Api.getContainerId docker (name options) s1 = (Ok id, s2) ->
                    if Js.truthy_str id
                    then fst (main st) = Ok tt
                    else main st
                         = (Throw (Error "non detached mode is unsupported"),
                            logged "runImage: done" s2))).
Proof.
  split.
  { intros argv Hd. unfold Api.program, parse. rewrite Hd.
    destruct (argv_name argv); eexists; reflexivity. }
  intros Hd.
  assert (Hrun : forall s, runImage s
                           = (Throw (Error "non detached mode is unsupported"),
                              logged "runImage: done" s)).
  { intros s. unfold Api.runImage, try_finally. rewrite Hd. reflexivity. }
  split; [apply Hrun | split].
  - set (P := fun c => creates_or_starts c = false).
    assert (Hemits : emits P runImage) by (apply runImage_not_detached_emits; exact Hd).
    enough (Hs : starts_with CListImages P main)
      by (intros r st' Hmain; exact (Hs _ _ _ Hmain)).
    unfold Api.main.
    apply starts_with_bind.
    + unfold Api.check. apply starts_with_bind.
      * unfold Api.pullImage. apply starts_with_try_finally; [| apply emits_console_log].
        apply starts_with_bind.
        -- unfold Api.getImageId. apply starts_with_bind.
           ++ apply starts_with_call.
           ++ intros imgs. apply emits_ret.
        -- intros prev.
           apply emits_bind; [apply emits_call; reflexivity | intros stream].
           apply emits_bind; [apply awaitStream_emits | intros _].
           apply emits_bind; [apply getImageId_emits; reflexivity | intros cur].
           apply emits_ret.
      * intros [|]; [| apply emits_ret].
        apply emits_bind; [apply stopContainer_emits; reflexivity | intros _].
        apply emits_bind; [apply removeContainer_emits; reflexivity | intros _].
        apply emits_bind; [assumption | intros _].
        apply removeOldImages_emits; reflexivity.
    + intros _.
      apply emits_bind; [apply getContainerId_emits; reflexivity | intros id].
      apply emits_bind; [destruct (negb _); [assumption | apply emits_ret] | intros _].
      destruct (restart options) as [r |]; [| apply emits_ret].
      destruct (Js.includes r "image-push"); [| apply emits_ret].
      intros s0 r0 s0'. unfold Api.listenImagePush, console_log.
      intros [= <- <-]. exists [CListen (Api.determineImagePort options)].
      cbn [calls]. split; [reflexivity |]. constructor; [reflexivity | constructor].
  - intros changed s1 Hpull. split; [exact (pullImage_returned_calls _ _ _ Hpull) |].
    destruct changed.
    + intros s2 s3 Hstop Hremove.
      unfold Api.main, Api.check, bind. rewrite Hpull, Hstop, Hremove, Hrun. reflexivity.
    + intros id s2 Hget.
      unfold Api.main, Api.check, bind. rewrite Hpull. cbn [ret]. rewrite Hget.
      destruct (Js.truthy_str id); cbn [negb ret].
      * destruct (restart options) as [r |]; [| reflexivity].
        destruct (Js.includes r "image-push"); reflexivity.
      * rewrite Hrun. reflexivity.
Qed.

End ApiEntry.

(* ===================================================================== *)
(** ** Resolving the image of a reference without a tag *)
(* ===================================================================== *)

Section DefaultTag.

Context {W : Type}.
Variable options : Options.
Hypothesis untagged : Js.indexOf (image options) ":" = None.

(** The legacy variant splits the reference and falls back on [latest]. *)
Lemma legacy_ref_defaults_to_latest :
  Legacy.getImageName options = image options
  /\ Legacy.getImageTag options = "latest".
Proof.
  unfold Legacy.getImageName, Legacy.getImageTag. rewrite untagged. auto.
Qed.

(** So it resolves the reference to the row of [repository:latest]. *)
Lemma legacy_getImageId_looks_up_latest
      (shell : Shell W) (shellParser : string -> list Legacy.Row)
      (st : State W) (output : string) (w1 : W) :
  exec shell "docker images --no-trunc" (world st) = (Ok output, w1) ->
  fst (Legacy.getImageId shell shellParser options st)
  = Ok match Legacy.lodash_find (shellParser output)
               [("REPOSITORY", image options); ("TAG", "latest")] with
       | Some row => Legacy.row_get row "IMAGE ID"
       | None => None
       end.
Proof.
  intros Hexec.
  destruct legacy_ref_defaults_to_latest as [Hn Ht].
  unfold Legacy.getImageId, Legacy.co_exec, bind, call. rewrite Hexec, Hn, Ht.
  destruct (Legacy.lodash_find _ _); reflexivity.
Qed.

(** The runtime-API variant compares the raw reference with the recorded
    tags: when every recorded tag has the form [repository:tag], a
    reference without a tag resolves to nothing. *)
Lemma api_getImageId_misses_untagged_ref
      (docker : Docker W) (st : State W) (images : list ImageRecord) (w1 : W) :
  listImages docker (world st) = (Ok images, w1) ->
  (forall im t, In im images -> In t (image_RepoTags im) -> Js.indexOf t ":" <> None) ->
  fst (Api.getImageId docker options st) = Ok None.
Proof.
  intros Hlist Htags.
  unfold Api.getImageId, Api.docker_listImages, bind, call. rewrite Hlist.
  cbn [ret fst]. f_equal.
  destruct (find _ images) as [im |] eqn:Hfind; [| reflexivity].
  apply find_some in Hfind as [Hin Hinc]. apply includes_In in Hinc.
  exfalso. exact (Htags _ _ Hin Hinc untagged).
Qed.

End DefaultTag.

(** C8, on a concrete daemon.  The configured reference is [myorg/app];
    the daemon holds [myorg/app:latest] and the registry serves a newer
    build of it.  The legacy variant resolves the reference to the image
    tagged [latest]; the runtime-API variant resolves it to nothing, so
    its pass reports no change and stops after the pull. *)
Theorem getImageId_untagged_ref_misses_latest :
  Js.indexOf (image Scenario.cfg_untagged) ":" = None
  /\ fst (Legacy.getImageId Sim.shell
            (fun _ => Sim.images_table (Sim.images Scenario.world_latest))
            Scenario.cfg_untagged (start_state Scenario.world_latest))
     = Ok (Some "sha256:ccc")
  /\ fst (Api.getImageId Sim.docker Scenario.cfg_untagged
            (start_state Scenario.world_latest))
     = Ok None
  /\ fst (Api.pullImage Sim.docker Scenario.cfg_untagged
            (start_state Scenario.world_latest))
     = Ok false
  /\ calls (snd (Api.check Sim.docker Scenario.cfg_untagged
                   (start_state Scenario.world_latest)))
     = [CListImages; CPull "myorg/app" None; CListImages].
Proof. vm_compute. repeat split; reflexivity. Qed.

(* ===================================================================== *)
(** ** The scenarios of the specification, run on the simulated daemon *)
(* ===================================================================== *)

(** Scenario A: same image id after the pull, nothing is restarted. *)
Example scenario_same_build :
  Api.check Sim.docker Scenario.cfg (start_state Scenario.world_same_build)
  = (Ok tt,
     {| world := Scenario.world_same_build;
        calls := [CListImages; CPull "myorg/app:v1" None; CListImages];
        console := [Log "Pulling from myorg/app:v1"; Log "Pull complete";
                    Log "pullImage: done"] |}).
Proof. vm_compute. reflexivity. Qed.

(** Scenario B: a new build stops and removes [web], then creates and
    starts its replacement and collects the replaced image. *)
Example scenario_new_build :
  let r := Api.check Sim.docker Scenario.cfg (start_state Scenario.world_new_build) in
  fst r = Ok tt
  /\ calls (snd r)
     = [CListImages; CPull "myorg/app:v1" None; CListImages;
        CListContainers true; CInspect "c0"; CStop "c0";
        CListContainers true; CRemove "c0";
        CCreateContainer (Api.createOptions Scenario.cfg);
        CStart "c1" (Api.startOptions Scenario.cfg);
        CListImages; CImageRemove "sha256:aaa"]
  /\ Sim.containers (world (snd r))
     = [{| Sim.c_desc := {| container_Id := "c1"; container_Names := ["/web"] |};
           Sim.c_running := true |}]
  /\ Sim.images (world (snd r))
     = [{| image_Id := "sha256:bbb"; image_RepoTags := ["myorg/app:v1"] |}].
Proof. vm_compute. repeat split; reflexivity. Qed.

(** Scenario C: the pass fails while creating the container; the answer
    is still 204 and the callback is told [error]. *)
Example scenario_create_fails :
  let r := Api.webhook Sim.docker Scenario.cfg Scenario.push_ours
             (start_state Scenario.world_create_fails) in
  fst r = Ok (Status 204)
  /\ last (calls (snd r)) CListImages = CRequest (Some "http://hub/cb") "error"
  /\ Sim.containers (world (snd r)) = [].
Proof. vm_compute. repeat split; reflexivity. Qed.

(** Scenario D: both dangling images are asked to go, the tagged one is
    left alone; the first removal fails and the second still happens. *)
Example scenario_dangling :
  Api.removeOldImages Sim.docker (start_state Scenario.world_dangling)
  = (Ok tt,
     {| world := Sim.with_images Scenario.world_dangling
                   [ {| image_Id := "sha256:d1"; image_RepoTags := ["<none>:<none>"] |};
                     {| image_Id := "sha256:aaa"; image_RepoTags := ["myorg/app:v1"] |} ];
        calls := [CListImages; CImageRemove "sha256:d1"; CImageRemove "sha256:d2"];
        console := [LogError (Error "conflict: unable to delete sha256:d1");
                    Log "Image sha256:d2 removed"; Log "removeOldImages: done"] |}).
Proof. vm_compute. reflexivity. Qed.

(** C6 as the specification words it fails on the code.  Started with the
    detach flag off while a new build is available, the agent lists and
    pulls images, stops and removes the running container, and only then
    throws: the container is gone and nothing replaces it.  Started the
    same way while the build is unchanged and the container exists, it
    throws nothing at all. *)
Lemma detach_off_fails_after_pull_and_removal :
  detach Scenario.cfg_attached = false
  /\ Api.main Sim.docker Scenario.cfg_attached (start_state Scenario.world_new_build)
     = (Throw (Error "non detached mode is unsupported"),
        {| world := Sim.with_containers
                      (Sim.with_images Scenario.world_new_build
                         [ {| image_Id := "sha256:aaa"; image_RepoTags := ["<none>:<none>"] |};
                           {| image_Id := "sha256:bbb"; image_RepoTags := ["myorg/app:v1"] |} ])
                      [] 1;
           calls := [CListImages; CPull "myorg/app:v1" None; CListImages;
                     CListContainers true; CInspect "c0"; CStop "c0";
                     CListContainers true; CRemove "c0"];
           console := [Log "Pulling from myorg/app:v1"; Log "Pull complete";
                       Log "pullImage: done"; Log "stopContainer: done";
                       Log "removeContainer: done"; Log "runImage: done"] |})
  /\ fst (Api.main Sim.docker Scenario.cfg_attached
            (start_state Scenario.world_same_build))
     = Ok tt.
Proof. vm_compute. repeat split; reflexivity. Qed.


(* ===================================================================== *)
(** ** The theorems at work on the simulated daemon *)
(* ===================================================================== *)

(** C1 on scenario B: the pull reports a change, and the pass is the four
    steps in order. *)
Lemma check_changed_runs_steps_in_order_witness :
  let st := start_state Scenario.world_new_build in
  let s1 := snd (Api.pullImage Sim.docker Scenario.cfg st) in
  Api.pullImage Sim.docker Scenario.cfg st = (Ok true, s1)
  /\ Api.check Sim.docker Scenario.cfg st
     = match Api.stopContainer Sim.docker Scenario.cfg s1 with
       | (Throw e, s2) => (Throw e, s2)
       | (Ok _, s2) =>
           match Api.removeContainer Sim.docker Scenario.cfg s2 with
           | (Throw e, s3) => (Throw e, s3)
           | (Ok _, s3) =>
               match Api.runImage Sim.docker Scenario.cfg s3 with
               | (Throw e, s4) => (Throw e, s4)
               | (Ok _, s4) => Api.removeOldImages Sim.docker s4
               end
           end
       end.
Proof.
  split; [vm_compute; reflexivity |].
  apply check_changed_runs_steps_in_order. vm_compute. reflexivity.
Defined.

(** C2 on scenario A: the pull reports no change. *)
Lemma check_unchanged_is_noop_witness :
  let st := start_state Scenario.world_same_build in
  let s1 := snd (Api.pullImage Sim.docker Scenario.cfg st) in
  Api.pullImage Sim.docker Scenario.cfg st = (Ok false, s1)
  /\ Api.check Sim.docker Scenario.cfg st = (Ok tt, s1)
  /\ exists new,
       calls s1 = (calls st ++ new)%list
       /\ Forall (fun c => lifecycle_or_gc c = false) new.
Proof.
  split; [vm_compute; reflexivity |].
  apply check_unchanged_is_noop. vm_compute. reflexivity.
Defined.

(** C3 on scenario B: the id before the pull is resolved, the id after
    it differs, and [pullImage] answers [true]. *)
Lemma pullImage_reports_identity_change_witness :
  let st := start_state Scenario.world_new_build in
  let s1 := snd (Api.getImageId Sim.docker Scenario.cfg st) in
  Api.getImageId Sim.docker Scenario.cfg st = (Ok (Some "sha256:aaa"), s1)
  /\ fst (Api.pullImage Sim.docker Scenario.cfg st) = Ok true.
Proof.
  intros st s1.
  assert (H0 : Api.getImageId Sim.docker Scenario.cfg st = (Ok (Some "sha256:aaa"), s1))
    by (vm_compute; reflexivity).
  split; [exact H0 |].
  edestruct (proj2 (proj2 (pullImage_reports_identity_change
                             Sim.docker Scenario.cfg st s1 _ H0)))
    as (changed & Hp & Hiff).
  - vm_compute. reflexivity.
  - vm_compute. reflexivity.
  - vm_compute. reflexivity.
  - rewrite Hp. cbn [fst]. f_equal. apply Hiff. discriminate.
Defined.


(** C6 on a command line without the flag, and on the agent started with
    [--no-detach] while a new build is available: [web] is stopped and
    removed before [runImage] throws. *)
Lemma detach_off_fails_only_at_runImage_witness :
  let argv := {| argv_name := Some "web"; argv_net := None; argv_volume := None;
                 argv_env := None; argv_detach := None; argv_tty := None;
                 argv_restart := None; argv_image := Some "myorg/app:v1";
                 argv_authConfig := None |} in
  let st := start_state Scenario.world_new_build in
  let s1 := snd (Api.pullImage Sim.docker Scenario.cfg_attached st) in
  let s2 := snd (Api.stopContainer Sim.docker Scenario.cfg_attached s1) in
  let s3 := snd (Api.removeContainer Sim.docker Scenario.cfg_attached s2) in
  argv_detach argv = None
  /\ Api.program Sim.docker argv st = (Exited 1 "detach", st)
  /\ detach Scenario.cfg_attached = false
  /\ Api.pullImage Sim.docker Scenario.cfg_attached st = (Ok true, s1)
  /\ Api.stopContainer Sim.docker Scenario.cfg_attached s1 = (Ok tt, s2)
  /\ Api.removeContainer Sim.docker Scenario.cfg_attached s2 = (Ok tt, s3)
  /\ Api.main Sim.docker Scenario.cfg_attached st
     = (Throw (Error "non detached mode is unsupported"), logged "runImage: done" s3).
Proof.
  intros argv st s1 s2 s3.
  pose proof (detach_off_fails_only_at_runImage Sim.docker Scenario.cfg_attached st)
    as [Hparse Hoff].
  assert (H1 : Api.pullImage Sim.docker Scenario.cfg_attached st = (Ok true, s1))
    by (vm_compute; reflexivity).
  assert (H2 : Api.stopContainer Sim.docker Scenario.cfg_attached s1 = (Ok tt, s2))
    by (vm_compute; reflexivity).
  assert (H3 : Api.removeContainer Sim.docker Scenario.cfg_attached s2 = (Ok tt, s3))
    by (vm_compute; reflexivity).
  split; [reflexivity |].
  split; [destruct (Hparse argv eq_refl) as (missing & Hp); reflexivity |].
  split; [reflexivity |].
  repeat (split; [assumption |]).
  destruct (Hoff eq_refl) as (_ & _ & Hpass).
  exact (proj2 (Hpass true s1 H1) s2 s3 H2 H3).
Defined.

(** C7 on scenario D: the listing succeeds; the two dangling images are
    asked to go although the first removal fails. *)
Lemma removeOldImages_selective_witness :
  let st := start_state Scenario.world_dangling in
  listImages Sim.docker (world st) = (Ok (Sim.images Scenario.world_dangling), world st)
  /\ fst (Api.removeOldImages Sim.docker st) = Ok tt
  /\ calls (snd (Api.removeOldImages Sim.docker st))
     = [CListImages; CImageRemove "sha256:d1"; CImageRemove "sha256:d2"].
Proof.
  intros st.
  assert (H0 : listImages Sim.docker (world st)
               = (Ok (Sim.images Scenario.world_dangling), world st)) by reflexivity.
  split; [exact H0 |].
  destruct (removeOldImages_selective Sim.docker st _ _ H0) as [-> _].
  split; reflexivity.
Defined.

(** C10 on a reference without a tag: no image is found before or after
    the pull, and the pass stops there. *)
Lemma pullImage_unresolved_ref_reports_unchanged_witness :
  let cfg := Scenario.cfg_untagged in
  let st := start_state Scenario.world_latest in
  let s1 := snd (Api.getImageId Sim.docker cfg st) in
  let p := Api.docker_pull Sim.docker (image cfg) (Api.pull_opts cfg) s1 in
  let stream := match fst p with
                | Ok s => s
                | Throw _ => {| stream_events := []; stream_error := None |}
                end in
  let s3 := snd (Api.awaitStream stream (snd p)) in
  let s4 := snd (Api.getImageId Sim.docker cfg s3) in
  Api.getImageId Sim.docker cfg st = (Ok None, s1)
  /\ p = (Ok stream, snd p)
  /\ Api.awaitStream stream (snd p) = (Ok (stream_events stream), s3)
  /\ Api.getImageId Sim.docker cfg s3 = (Ok None, s4)
  /\ Api.pullImage Sim.docker cfg st = (Ok false, logged "pullImage: done" s4)
  /\ Api.check Sim.docker cfg st = (Ok tt, logged "pullImage: done" s4)
  /\ calls (logged "pullImage: done" s4)
     = (calls st ++ [CListImages; CPull (image cfg) (Api.pull_opts cfg); CListImages])%list.
Proof.
  intros cfg st s1 p stream s3 s4.
  assert (H1 : Api.getImageId Sim.docker cfg st = (Ok None, s1)) by (vm_compute; reflexivity).
  assert (H2 : p = (Ok stream, snd p)) by (vm_compute; reflexivity).
  assert (H3 : Api.awaitStream stream (snd p) = (Ok (stream_events stream), s3))
    by (vm_compute; reflexivity).
  assert (H4 : Api.getImageId Sim.docker cfg s3 = (Ok None, s4)) by (vm_compute; reflexivity).
  repeat (split; [assumption |]).
  exact (pullImage_unresolved_ref_reports_unchanged Sim.docker cfg
           st s1 (snd p) s3 s4 stream (stream_events stream) H1 H2 H3 H4).
Defined.

(* ===================================================================== *)
(** ** Further properties of the runtime-API variant: the lifecycle steps *)
(* ===================================================================== *)

Section ApiLifecycle.

Context {W : Type}.
Variable docker : Docker W.
Variable options : Options.

(** The container the lookup by name settles on. *)
Local Abbreviation named n containers :=
  (find (fun container => Js.includes (container_Names container) ("/" ++ n)) containers).

(** X1.  [getContainerId] lists all containers, running or not, and
    answers the id of the first one that carries exactly ["/" ++ name]
    among its names; it answers [undefined] exactly when no listed
    container carries that name; a listing that fails is thrown on. *)
Theorem getContainerId_exact_name (n : string) (st : State W) :
  match listContainers docker true (world st) with
  | (Throw e, w1) =>
      Api.getContainerId docker n st = (Throw e, called st [CListContainers true] w1)
  | (Ok containers, w1) =>
      exists id,
        Api.getContainerId docker n st = (Ok id, called st [CListContainers true] w1)
        /\ (id = None <->
            forall c, In c containers -> ~ In ("/" ++ n)%string (container_Names c))
        /\ (forall i, id = Some i ->
            exists pre c post,
              containers = (pre ++ c :: post)%list
              /\ container_Id c = i
              /\ In ("/" ++ n)%string (container_Names c)
              /\ forall c', In c' pre -> ~ In ("/" ++ n)%string (container_Names c'))
  end.
Proof.
  unfold Api.getContainerId, Api.docker_listContainers, bind, call, called.
  destruct (listContainers docker true (world st)) as [[containers | e] w1];
    [| reflexivity].
  eexists. split; [reflexivity |]. split.
  - split.
    + intros Hnone c Hin Hname.
      destruct (named n containers) as [c0 |] eqn:Hfind; [discriminate |].
      apply (find_none _ _ Hfind) in Hin. apply includes_In in Hname. congruence.
    + intros Hall. destruct (named n containers) as [c0 |] eqn:Hfind; [| reflexivity].
      apply find_some in Hfind as [Hin Hname]. apply includes_In in Hname.
      exfalso. exact (Hall _ Hin Hname).
  - intros i Hi. clear st w1.
    induction containers as [|c cs IH]; [discriminate |].
    cbn [find] in Hi.
    destruct (Js.includes (container_Names c) ("/" ++ n)) eqn:Hinc.
    + injection Hi as <-. exists [], c, cs. cbn.
      repeat split; [apply includes_In; assumption | intros c' []].
    + destruct (IH Hi) as (pre & c1 & post & -> & Hid & Hname & Hpre).
      exists (c :: pre), c1, post. repeat split; auto.
      intros c' [<- | Hin]; [| auto].
      intros Hname'. apply includes_In in Hname'. congruence.
Qed.

(** X2.  [stopContainer], once the containers are listed: with no
    container of the configured name it does nothing more; with one that
    [inspect] reports as not running it stops nothing; with a running one
    it asks to stop that container, and its outcome is the outcome of the
    stop. *)
Theorem stopContainer_only_stops_running
        (st : State W) (containers : list ContainerDescriptor) (w1 : W) :
  listContainers docker true (world st) = (Ok containers, w1) ->
  (named (name options) containers = None ->
   Api.stopContainer docker options st
   = (Ok tt, logged "stopContainer: done" (called st [CListContainers true] w1)))
  /\ (forall c output w2,
         named (name options) containers = Some c ->
         container_Id c <> "" ->
         container_inspect docker (container_Id c) w1 = (Ok output, w2) ->
         Api.stopContainer docker options st
         = if State_Running output
           then (fst (container_stop docker (container_Id c) w2),
                 logged "stopContainer: done"
                   (called st [CListContainers true; CInspect (container_Id c);
                               CStop (container_Id c)]
                      (snd (container_stop docker (container_Id c) w2))))
           else (Ok tt,
                 logged "stopContainer: done"
                   (called st [CListContainers true; CInspect (container_Id c)] w2))).
Proof.
  intros Hlist. split.
  - intros Hnone.
    unfold Api.stopContainer, try_finally, Api.getContainerId,
      Api.docker_listContainers, bind, call.
    rewrite Hlist, Hnone. reflexivity.
  - intros c output w2 Hfound Hid Hinspect.
    unfold Api.stopContainer, try_finally, Api.getContainerId,
      Api.docker_listContainers, Api.docker_inspect, Api.docker_stop, bind, call.
    rewrite Hlist, Hfound. cbn [ret option_map Js.truthy_str Js.the world calls console].
    destruct (String.eqb_spec (container_Id c) "") as [E | _]; [contradiction |].
    cbn [negb world calls console]. rewrite Hinspect.
    destruct (State_Running output); cbn [negb ret world calls console].
    + destruct (container_stop docker (container_Id c) w2) as [r w3].
      unfold logged, called. cbn. rewrite <- !app_assoc. reflexivity.
    + unfold logged, called. cbn. rewrite <- !app_assoc. reflexivity.
Qed.

(** X3.  [removeContainer], once the containers are listed: with no
    container of the configured name it does nothing more; otherwise it
    asks to remove the one found, without looking at whether it runs, and
    its outcome is the outcome of the removal. *)
Theorem removeContainer_removes_the_named_one
        (st : State W) (containers : list ContainerDescriptor) (w1 : W) :
  listContainers docker true (world st) = (Ok containers, w1) ->
  (named (name options) containers = None ->
   Api.removeContainer docker options st
   = (Ok tt, logged "removeContainer: done" (called st [CListContainers true] w1)))
  /\ (forall c,
         named (name options) containers = Some c ->
         container_Id c <> "" ->
         Api.removeContainer docker options st
         = (fst (container_remove docker (container_Id c) w1),
            logged "removeContainer: done"
              (called st [CListContainers true; CRemove (container_Id c)]
                 (snd (container_remove docker (container_Id c) w1))))).
Proof.
  intros Hlist. split.
  - intros Hnone.
    unfold Api.removeContainer, try_finally, Api.getContainerId,
      Api.docker_listContainers, bind, call.
    rewrite Hlist, Hnone. reflexivity.
  - intros c Hfound Hid.
    unfold Api.removeContainer, try_finally, Api.getContainerId,
      Api.docker_listContainers, Api.docker_remove, bind, call.
    rewrite Hlist, Hfound. cbn [ret option_map Js.truthy_str Js.the world calls console].
    destruct (String.eqb_spec (container_Id c) "") as [E | _]; [contradiction |].
    cbn [negb world calls console].
    destruct (container_remove docker (container_Id c) w1) as [r w2].
    unfold logged, called. cbn. rewrite <- !app_assoc. reflexivity.
Qed.

(** X4.  [runImage] in detached mode: it asks to create the container
    and, only if that succeeds, to start the container just created; a
    creation that fails is thrown on and nothing is started; otherwise its
    outcome is the outcome of the start. *)
Theorem runImage_creates_then_starts (st : State W) :
  detach options = true ->
  Api.runImage docker options st
  = match createContainer docker (Api.createOptions options) (world st) with
    | (Throw e, w1) =>
        (Throw e,
         logged "runImage: done"
           (called st [CCreateContainer (Api.createOptions options)] w1))
    | (Ok container, w1) =>
        (fst (container_start docker container (Api.startOptions options) w1),
         logged "runImage: done"
           (called st [CCreateContainer (Api.createOptions options);
                       CStart container (Api.startOptions options)]
              (snd (container_start docker container (Api.startOptions options) w1))))
    end.
Proof.
  intros Hd.
  unfold Api.runImage, try_finally, Api.docker_createContainer, Api.docker_start,
    bind, call.
  rewrite Hd. cbn [negb].
  destruct (createContainer docker (Api.createOptions options) (world st))
    as [[container | e] w1]; [| reflexivity].
  cbn [world calls console].
  destruct (container_start docker container (Api.startOptions options) w1) as [r w2].
  unfold logged, called. cbn. rewrite <- !app_assoc. reflexivity.
Qed.

End ApiLifecycle.

(* ===================================================================== *)
(** ** Further properties of the runtime-API variant: pull and collection *)
(* ===================================================================== *)

Section ApiPull.

Context {W : Type}.
Variable docker : Docker W.
Variable options : Options.

Lemma onProgress_logs (events : list ProgressEvent) (st : State W) :
  for_of events (Api.onProgress (W := W)) st
  = (Ok tt,
     {| world := world st; calls := calls st;
        console := console st ++ map Log (shown_statuses events) |}).
Proof.
  revert st. induction events as [|ev events IH]; intros st.
  - cbn. unfold ret. rewrite app_nil_r. destruct st; reflexivity.
  - cbn [for_of shown_statuses flat_map]. unfold bind at 1.
    unfold Api.onProgress, Js.truthy_obj, Js.truthy_str, Js.the.
    destruct (ev_progressDetail ev) as [d |]; cbn [ret app map].
    + rewrite IH. reflexivity.
    + destruct (ev_status ev) as [s |]; cbn [ret app map negb].
      * destruct (String.eqb s ""); cbn [negb ret console_log app map].
        -- rewrite IH. reflexivity.
        -- rewrite IH. cbn [world calls console]. rewrite <- app_assoc. reflexivity.
      * rewrite IH. reflexivity.
Qed.

(** X5.  [awaitStream] talks to nobody: it writes to the console, in
    order, the status of every event that has no progress detail and a
    non-empty status, and nothing else; then it rejects with the error of
    the stream, if there is one, and resolves with the events otherwise. *)
Theorem awaitStream_logs_bare_statuses (stream : Stream) (st : State W) :
  Api.awaitStream stream st
  = (match stream_error stream with
     | Some err => Throw err
     | None => Ok (stream_events stream)
     end,
     {| world := world st; calls := calls st;
        console := console st ++ map Log (shown_statuses (stream_events stream)) |}).
Proof.
  unfold Api.awaitStream, bind. rewrite onProgress_logs.
  destruct (stream_error stream); reflexivity.
Qed.

(** X6.  Whatever the runtime answers, the calls of [pullImage] are an
    initial part of: list the images, pull the configured reference, list
    the images again.  It returns a value only after all three; after one
    or two calls it has thrown. *)
Theorem pullImage_calls_are_list_pull_list (st : State W) :
  let '(r, st') := Api.pullImage docker options st in
  let L := CListImages in
  let P := CPull (image options) (Api.pull_opts options) in
  (calls st' = (calls st ++ [L])%list /\ exists e, r = Throw e)
  \/ (calls st' = (calls st ++ [L; P])%list /\ exists e, r = Throw e)
  \/ calls st' = (calls st ++ [L; P; L])%list.
Proof.
  unfold Api.pullImage, try_finally, Api.getImageId, Api.docker_listImages,
    Api.docker_pull. unfold bind at 1 2. unfold call at 1.
  destruct (listImages docker (world st)) as [[imgs | e] w1];
    cbn [ret world calls console console_log]; [| left; eauto].
  unfold bind at 1. unfold call at 1. cbn [world calls console].
  destruct (pull docker (image options) (Api.pull_opts options) w1) as [[stream | e] w2];
    cbn [world calls console console_log]; [| right; left; rewrite <- app_assoc; eauto].
  unfold bind at 1.
  match goal with
  | |- context [Api.awaitStream stream ?x] =>
      destruct (awaitStream_result stream x) as (s3 & -> & Hw & Hc)
  end.
  cbn [world calls] in Hw, Hc.
  destruct (stream_error stream) as [err |]; cbn [world calls console console_log];
    [right; left; rewrite Hc, <- app_assoc; eauto |].
  unfold bind, call. rewrite Hw.
  destruct (listImages docker w2) as [[imgs2 | e] w3];
    cbn [ret world calls console console_log];
    right; right; rewrite Hc, <- !app_assoc; reflexivity.
Qed.

(** The [finally] block of a step leaves its marker last on the console. *)
Lemma finally_marker {A} (body : M W A) (s : string) (st : State W) :
  try_finally body (console_log s) st
  = (fst (body st), logged s (snd (body st))).
Proof.
  unfold try_finally. destruct (body st) as [r s1]. reflexivity.
Qed.

(** X7.  Each of the five steps writes its completion marker as its last
    console line, whether it returns or throws. *)
Theorem steps_log_done_last (st : State W) :
  last (console (snd (Api.pullImage docker options st))) (Log "") = Log "pullImage: done"
  /\ last (console (snd (Api.stopContainer docker options st))) (Log "")
     = Log "stopContainer: done"
  /\ last (console (snd (Api.removeContainer docker options st))) (Log "")
     = Log "removeContainer: done"
  /\ last (console (snd (Api.runImage docker options st))) (Log "") = Log "runImage: done"
  /\ last (console (snd (Api.removeOldImages docker st))) (Log "")
     = Log "removeOldImages: done".
Proof.
  unfold Api.pullImage, Api.stopContainer, Api.removeContainer, Api.runImage,
    Api.removeOldImages.
  rewrite !finally_marker. cbn [snd logged console].
  repeat split; apply last_last.
Qed.

(** X8.  [removeOldImages] throws exactly when listing the images fails,
    and then with the error of the listing and without asking for any
    removal: no failure of a removal ever leaves it. *)
Theorem removeOldImages_fails_only_on_listing (st : State W) :
  match listImages docker (world st) with
  | (Throw e, w1) =>
      Api.removeOldImages docker st
      = (Throw e, logged "removeOldImages: done" (called st [CListImages] w1))
  | (Ok _, _) => fst (Api.removeOldImages docker st) = Ok tt
  end.
Proof.
  destruct (listImages docker (world st)) as [[imgs | e] w1] eqn:Hlist;
    unfold Api.removeOldImages, try_finally; unfold bind at 1;
    unfold Api.docker_listImages, call; rewrite Hlist; [| reflexivity].
  rewrite removal_loop. reflexivity.
Qed.

(** X21.  A pull that throws ends the pass there: [check] throws the
    same error from the same state, and no stop, removal, creation, start
    or image removal has been asked for. *)
Theorem check_failed_pull_aborts (st s1 : State W) (e : JsError) :
  Api.pullImage docker options st = (Throw e, s1) ->
  Api.check docker options st = (Throw e, s1)
  /\ exists new,
       calls s1 = (calls st ++ new)%list
       /\ Forall (fun c => lifecycle_or_gc c = false) new.
Proof.
  intros Hpull. split.
  - unfold Api.check, bind. rewrite Hpull. reflexivity.
  - apply (pullImage_emits docker options (fun c => lifecycle_or_gc c = false))
      with (r := Throw e); auto.
Qed.

End ApiPull.

(* ===================================================================== *)
(** ** Further properties of the runtime-API variant: options and entry *)
(* ===================================================================== *)

Lemma includes_iff (r1 r2 : list string) (x : string) :
  (In x r1 <-> In x r2) -> Js.includes r1 x = Js.includes r2 x.
Proof.
  intros H. destruct (Js.includes r1 x) eqn:E1, (Js.includes r2 x) eqn:E2; try reflexivity.
  - apply includes_In, H, includes_In in E1. congruence.
  - apply includes_In, H, includes_In in E2. congruence.
Qed.

(** X9.  Of the restart policies only [always] reaches the runtime: two
    lists of policies that agree on whether [always] is among them give
    the same creation options, the same start options and, in the legacy
    variant, the same command line. *)
Theorem restart_policies_other_than_always_are_ignored
        (o : Options) (r1 r2 : list string) :
  (In "always" r1 <-> In "always" r2) ->
  Api.createOptions (set_restart o (Some r1)) = Api.createOptions (set_restart o (Some r2))
  /\ Api.startOptions (set_restart o (Some r1)) = Api.startOptions (set_restart o (Some r2))
  /\ Legacy.run_cmd (set_restart o (Some r1)) = Legacy.run_cmd (set_restart o (Some r2)).
Proof.
  intros H. apply includes_iff in H.
  unfold Api.createOptions, Api.startOptions, Legacy.run_cmd, set_restart.
  cbn [name net volume env detach interactive tty restart image authConfig].
  rewrite H. auto.
Qed.

Section ApiMain.

Context {W : Type}.
Variable docker : Docker W.
Variable options : Options.

Local Abbreviation named n containers :=
  (find (fun container => Js.includes (container_Names container) ("/" ++ n)) containers).

(** X10.  A request that is not a POST, or not on the webhook path, is
    passed on untouched: no call, no console line, no status. *)
Theorem webhook_passes_other_requests (req : Request) (st : State W) :
  req_method req <> "POST" \/ req_url req <> WEBHOOK_URL ->
  Api.webhook docker options req st = (Ok Next, st).
Proof.
  intros H. unfold Api.webhook.
  destruct (String.eqb_spec (req_method req) "POST") as [Hm | Hm];
    destruct (String.eqb_spec (req_url req) WEBHOOK_URL) as [Hu | Hu];
    try reflexivity.
  destruct H; contradiction.
Qed.

Lemma listen_or_not (s : State W) :
  match restart options with
  | Some r => if Js.includes r "image-push" then Api.listenImagePush options else ret tt
  | None => ret tt
  end s
  = (Ok tt,
     {| world := world s;
        calls := calls s ++ (if wants_listener options
                             then [CListen (Api.determineImagePort options)] else []);
        console := console s ++
                   (if wants_listener options
                    then [Log ("listenImagePush: running on http://<domain.name>:"
                               ++ number_to_string (Api.determineImagePort options)
                               ++ WEBHOOK_URL)]
                    else []) |}).
Proof.
  unfold wants_listener.
  destruct (restart options) as [r |];
    [destruct (Js.includes r "image-push") |];
    cbn; unfold ret; rewrite ?app_nil_r; try reflexivity; destruct s; reflexivity.
Qed.

(** X11.  In a run of [main] the listener is bound last, on the derived
    port, and exactly when everything before it succeeded and the restart
    policies include [image-push]; a startup that throws binds no port. *)
Theorem main_binds_listener_last (st : State W) :
  let '(r, st') := Api.main docker options st in
  exists before,
    Forall (fun c => is_listen c = false) before
    /\ calls st'
       = (calls st ++ before ++
          (if match r with Ok _ => wants_listener options | Throw _ => false end
           then [CListen (Api.determineImagePort options)] else []))%list.
Proof.
  set (P := fun c => is_listen c = false).
  assert (Hcheck : emits P (Api.check docker options)).
  { apply check_emits; try reflexivity. apply runImage_emits; reflexivity. }
  unfold Api.main, bind.
  destruct (Api.check docker options st) as [[[] | e] s1] eqn:H1;
    destruct (Hcheck _ _ _ H1) as (n1 & E1 & F1);
    [| exists n1; rewrite app_nil_r; auto].
  destruct (Api.getContainerId docker (name options) s1) as [[id | e] s2] eqn:H2;
    destruct (getContainerId_emits docker P (name options) eq_refl _ _ _ H2)
      as (n2 & E2 & F2);
    [| exists (n1 ++ n2)%list; rewrite app_nil_r, E2, E1, app_assoc;
       split; [apply Forall_app; auto | reflexivity]].
  assert (Hrun : emits P (if negb (Js.truthy_str id)
                          then Api.runImage docker options else ret tt)).
  { destruct (negb _); [apply runImage_emits; reflexivity | apply emits_ret]. }
  destruct ((if negb (Js.truthy_str id) then Api.runImage docker options else ret tt) s2)
    as [[[] | e] s3] eqn:H3;
    destruct (Hrun _ _ _ H3) as (n3 & E3 & F3).
  - rewrite listen_or_not. exists (n1 ++ n2 ++ n3)%list. cbn [calls].
    rewrite E3, E2, E1, <- !app_assoc.
    split; [repeat (apply Forall_app; split); auto | reflexivity].
  - exists (n1 ++ n2 ++ n3)%list. rewrite app_nil_r, E3, E2, E1, <- !app_assoc.
    split; [repeat (apply Forall_app; split); auto | reflexivity].
Qed.

(** X12.  When the pull reports no change, [main] looks the container up
    by name.  If one exists, nothing is created or started: the only
    further calls are the listing and, if asked for, the binding of the
    port.  If none exists, [main] goes on with [runImage], whose failure
    is the failure of [main]. *)
Theorem main_starts_only_a_missing_container
        (st s1 : State W) (containers : list ContainerDescriptor) (w2 : W) :
  Api.pullImage docker options st = (Ok false, s1) ->
  listContainers docker true (world s1) = (Ok containers, w2) ->
  let s2 := called s1 [CListContainers true] w2 in
  let listen := if wants_listener options
                then [CListen (Api.determineImagePort options)] else [] in
  (forall c,
      named (name options) containers = Some c ->
      container_Id c <> "" ->
      exists st',
        Api.main docker options st = (Ok tt, st')
        /\ world st' = w2
        /\ calls st' = (calls s2 ++ listen)%list)
  /\ (named (name options) containers = None ->
      match Api.runImage docker options s2 with
      | (Throw e, s3) => Api.main docker options st = (Throw e, s3)
      | (Ok _, s3) =>
          exists st',
            Api.main docker options st = (Ok tt, st')
            /\ world st' = world s3
            /\ calls st' = (calls s3 ++ listen)%list
      end).
Proof.
  intros Hpull Hlist s2 listen.
  assert (Hcheck : Api.check docker options st = (Ok tt, s1))
    by (unfold Api.check, bind; rewrite Hpull; reflexivity).
  assert (Hget : Api.getContainerId docker (name options) s1
                 = (Ok (option_map container_Id (named (name options) containers)), s2)).
  { unfold Api.getContainerId, Api.docker_listContainers, bind, call.
    rewrite Hlist. reflexivity. }
  split.
  - intros c Hfound Hid.
    unfold Api.main, bind. rewrite Hcheck, Hget, Hfound.
    cbn [option_map Js.truthy_str].
    destruct (String.eqb_spec (container_Id c) "") as [E | _]; [contradiction |].
    cbn [negb ret]. rewrite listen_or_not.
    eexists. split; [reflexivity |]. split; reflexivity.
  - intros Hnone.
    unfold Api.main, bind. rewrite Hcheck, Hget, Hnone.
    cbn [option_map Js.truthy_str negb].
    destruct (Api.runImage docker options s2) as [[[] | e] s3]; [| reflexivity].
    rewrite listen_or_not.
    eexists. split; [reflexivity |]. split; reflexivity.
Qed.

End ApiMain.

(* ===================================================================== *)
(** ** Further properties: splitting an image reference *)
(* ===================================================================== *)

Lemma index_colon_cons (c : ascii) (s : string) :
  index 0 ":" (String c s)
  = if Ascii.eqb c ":" then Some 0%nat else option_map Datatypes.S (index 0 ":" s).
Proof.
  cbn [index prefix].
  destruct (ascii_dec ":" c) as [<- | Hne].
  - destruct s; reflexivity.
  - destruct (Ascii.eqb_spec c ":") as [-> | _]; [contradiction |].
    destruct (index 0 ":" s); reflexivity.
Qed.

Lemma substring_all (s : string) : substring 0 (String.length s) s = s.
Proof. induction s as [|c s IH]; [reflexivity | cbn; now rewrite IH]. Qed.

Lemma substring_skip (a b : string) (n : nat) :
  substring (String.length a) n (a ++ b) = substring 0 n b.
Proof. induction a as [|c a IH]; [reflexivity | cbn; exact IH]. Qed.

Lemma substring_prefix (a b : string) :
  substring 0 (String.length a) (a ++ b) = a.
Proof.
  induction a as [|c a IH]; cbn.
  - destruct b; reflexivity.
  - now rewrite IH.
Qed.

Lemma string_app_assoc (a b c : string) : ((a ++ b) ++ c = a ++ (b ++ c))%string.
Proof. induction a as [|x a IH]; [reflexivity | cbn; now rewrite IH]. Qed.

Lemma length_append (a b : string) :
  String.length (a ++ b) = (String.length a + String.length b)%nat.
Proof. induction a as [|c a IH]; [reflexivity | cbn; now rewrite IH]. Qed.

(** The first colon of [a ++ ":" ++ b] is the one written, when [a] has
    none. *)
Lemma index_first_colon (a b : string) :
  index 0 ":" a = None -> index 0 ":" (a ++ String ":" b) = Some (String.length a).
Proof.
  induction a as [|c a IH]; intros Hnone.
  - cbn [append String.length]. rewrite index_colon_cons. reflexivity.
  - rewrite index_colon_cons in Hnone.
    cbn [append String.length]. rewrite index_colon_cons.
    destruct (Ascii.eqb c ":"); [discriminate |].
    destruct (index 0 ":" a) as [j |] eqn:Hj; [discriminate |].
    rewrite IH by reflexivity. reflexivity.
Qed.

(** A string with a colon is its part before the first colon, the colon,
    and the rest. *)
Lemma split_at_first_colon (s : string) (i : nat) :
  index 0 ":" s = Some i ->
  (substring 0 i s ++ ":" ++ substring (i + 1) (String.length s - (i + 1)) s)%string = s
  /\ index 0 ":" (substring 0 i s) = None.
Proof.
  revert i. induction s as [|c s IH]; intros i Hi; [discriminate |].
  rewrite index_colon_cons in Hi.
  destruct (Ascii.eqb_spec c ":") as [-> | Hne].
  - injection Hi as <-. cbn. rewrite Nat.sub_0_r, substring_all. auto.
  - destruct (index 0 ":" s) as [j |] eqn:Hj; [| discriminate].
    injection Hi as <-. destruct (IH j eq_refl) as [Hs Hn].
    cbn [substring Nat.add String.length Nat.sub append]. split.
    + f_equal. exact Hs.
    + rewrite index_colon_cons.
      destruct (Ascii.eqb_spec c ":") as [E | _]; [contradiction |].
      rewrite Hn. reflexivity.
Qed.

(** X13.  A reference is split at its first colon: when it reads
    [repository:tag] with no colon in [repository], the image name of both
    variants is [repository] and the legacy tag is [tag], whatever [tag]
    holds (a further colon included). *)
Theorem image_ref_splits_at_first_colon (o : Options) (repository tag : string) :
  Js.indexOf repository ":" = None ->
  image o = (repository ++ ":" ++ tag)%string ->
  Api.getImageName o = repository
  /\ Legacy.getImageName o = repository
  /\ Legacy.getImageTag o = tag.
Proof.
  unfold Js.indexOf. intros Hnone Himg.
  assert (Hi : Js.indexOf (image o) ":" = Some (String.length repository))
    by (unfold Js.indexOf; rewrite Himg; apply index_first_colon; exact Hnone).
  unfold Api.getImageName, Legacy.getImageName, Legacy.getImageTag.
  rewrite Hi, Himg. unfold Js.substr, Js.substr_from.
  rewrite substring_prefix. repeat split.
  rewrite length_append. cbn [String.length append].
  replace (String.length repository + 1)%nat
    with (String.length (repository ++ ":")) by (rewrite length_append; reflexivity).
  replace (repository ++ String ":" tag)%string with ((repository ++ ":") ++ tag)%string
    by (rewrite string_app_assoc; reflexivity).
  rewrite substring_skip.
  replace (String.length repository + Datatypes.S (String.length tag)
           - String.length (repository ++ ":"))%nat
    with (String.length tag) by (rewrite length_append; cbn; lia).
  apply substring_all.
Qed.

(** X14.  In the legacy variant the name and the tag of a reference put
    back together give the reference itself when it has a colon, and the
    reference followed by [:latest] when it has none; the name never
    holds a colon. *)
Theorem legacy_name_and_tag_rebuild_the_ref (o : Options) :
  (Legacy.getImageName o ++ ":" ++ Legacy.getImageTag o)%string
  = match Js.indexOf (image o) ":" with
    | Some _ => image o
    | None => (image o ++ ":latest")%string
    end
  /\ Js.indexOf (Legacy.getImageName o) ":" = None.
Proof.
  unfold Legacy.getImageName, Legacy.getImageTag, Js.indexOf, Js.substr, Js.substr_from.
  destruct (index 0 ":" (image o)) as [i |] eqn:Hi.
  - exact (split_at_first_colon _ _ Hi).
  - auto.
Qed.

(* ===================================================================== *)
(** ** Further properties of the legacy variant *)
(* ===================================================================== *)

Lemma blank_joined_app (l1 l2 : list string) :
  blank_joined (l1 ++ l2) = (blank_joined l1 ++ blank_joined l2)%string.
Proof.
  induction l1 as [|w l1 IH]; [reflexivity |].
  cbn [app blank_joined]. rewrite IH.
  change (" " ++ w ++ blank_joined l1 ++ blank_joined l2)%string
    with (String " " (w ++ blank_joined l1 ++ blank_joined l2))%string.
  change ((" " ++ w ++ blank_joined l1) ++ blank_joined l2)%string
    with (String " " ((w ++ blank_joined l1) ++ blank_joined l2))%string.
  now rewrite string_app_assoc.
Qed.

Lemma fold_volumes (volumes : list string) (cmd : string) :
  fold_left (fun cmd volume => cmd ++ " --volume=" ++ volume)%string volumes cmd
  = (cmd ++ blank_joined (map (fun volume => "--volume=" ++ volume)%string volumes))%string.
Proof.
  revert cmd. induction volumes as [|v volumes IH]; intros cmd; cbn [fold_left map blank_joined].
  - induction cmd as [|c cmd IHc]; [reflexivity | cbn; now rewrite <- IHc].
  - rewrite IH, string_app_assoc.
    change (" --volume=" ++ v)%string with (String " " ("--volume=" ++ v))%string.
    change (" " ++ ("--volume=" ++ v) ++ blank_joined (map (fun volume => "--volume=" ++ volume) volumes))%string
      with (String " " (("--volume=" ++ v) ++ blank_joined (map (fun volume => "--volume=" ++ volume) volumes)))%string.
    cbn [append]. reflexivity.
Qed.

Lemma append_empty_r (s : string) : (s ++ "")%string = s.
Proof. induction s as [|c s IH]; [reflexivity | cbn; now rewrite IH]. Qed.

(** The accumulated command line, word by word. *)
Lemma run_cmd_blank_joined (o : Options) :
  Legacy.run_cmd o = ("docker run" ++ blank_joined (run_flags o ++ [image o]))%string.
Proof.
  unfold Legacy.run_cmd, run_flags.
  rewrite !blank_joined_app.
  set (c0 := "docker run").
  destruct (Js.truthy_str (Some (name o)));
    destruct (Js.truthy_str (net o));
    destruct (volume o) as [vs |];
    destruct (detach o); destruct (interactive o); destruct (tty o);
    destruct (restart o) as [r |]; try destruct (Js.includes r "always");
    rewrite ?fold_volumes; cbn [blank_joined map];
    rewrite ?append_empty_r, ?string_app_assoc; cbn [append];
    rewrite ?append_empty_r, ?string_app_assoc; reflexivity.
Qed.

Section LegacyFacts.

Context {W : Type}.
Variable shell : Shell W.
Variable shellParser : string -> list Legacy.Row.
Variable JSON_parse : string -> Result (list InspectOutput).
Variable http : option string -> string -> W -> option JsError * W.
Variable options : Options.

Local Abbreviation l_getImageId := (Legacy.getImageId shell shellParser options).
Local Abbreviation l_pullImage := (Legacy.pullImage shell shellParser options).
Local Abbreviation l_stopContainer :=
  (Legacy.stopContainer shell shellParser options JSON_parse).
Local Abbreviation l_removeContainer := (Legacy.removeContainer shell shellParser options).
Local Abbreviation l_runImage := (Legacy.runImage shell options).
Local Abbreviation l_redeploy := (Legacy.redeploy shell shellParser options JSON_parse).
Local Abbreviation l_webhook := (Legacy.webhook shell shellParser options JSON_parse http).
Local Abbreviation l_main := (Legacy.main shell shellParser options JSON_parse).

(** The image id the legacy lookup reads off the text of [docker images]. *)
Local Abbreviation image_id_in output :=
  (match Legacy.lodash_find (shellParser output)
           [("REPOSITORY", Legacy.getImageName options);
            ("TAG", Legacy.getImageTag options)] with
   | Some row => Legacy.row_get row "IMAGE ID"
   | None => None
   end).

(** The row of [docker ps] the legacy lookup settles on. *)
Local Abbreviation container_row output :=
  (Legacy.lodash_find (shellParser output) [("NAMES", name options)]).

Lemma legacy_getImageId_run (st : State W) :
  l_getImageId st
  = match exec shell "docker images --no-trunc" (world st) with
    | (Ok output, w1) =>
        (Ok (image_id_in output), called st [CExec "docker images --no-trunc"] w1)
    | (Throw e, w1) => (Throw e, called st [CExec "docker images --no-trunc"] w1)
    end.
Proof.
  unfold Legacy.getImageId, Legacy.co_exec, bind, call.
  destruct (exec shell "docker images --no-trunc" (world st)) as [[output | e] w1];
    [| reflexivity].
  destruct (Legacy.lodash_find _ _); reflexivity.
Qed.

(** X15.  The legacy [runImage] gives the shell exactly one command:
    [docker run] followed, each after one blank, by one word per option
    that is set, in a fixed order (name, network, the volumes in the order
    given, detach, interactive, tty, restart) and by the image reference
    as its last word.  It does so for every configuration: with detach off
    the flag is simply absent.  Its outcome is the outcome of the
    command. *)
Theorem legacy_runImage_runs_one_command (st : State W) :
  let cmd := ("docker run" ++ blank_joined (run_flags options ++ [image options]))%string in
  l_runImage st
  = (match fst (exec shell cmd (world st)) with
     | Ok _ => Ok tt
     | Throw e => Throw e
     end,
     logged "runImage: done" (called st [CExec cmd] (snd (exec shell cmd (world st))))).
Proof.
  intros cmd. unfold Legacy.runImage, try_finally, bind, Legacy.co_exec, call.
  rewrite run_cmd_blank_joined. fold cmd.
  destruct (exec shell cmd (world st)) as [[out | e] w1]; reflexivity.
Qed.

(** X16.  The legacy [pullImage], once the first [docker images] has
    answered: a [docker pull] that fails is thrown on; otherwise, once the
    second [docker images] has answered, the result is [true] exactly
    when the image id read off the second table differs from the one read
    off the first. *)
Theorem legacy_pullImage_compares_ids (st : State W) (output0 : string) (w1 : W) :
  exec shell "docker images --no-trunc" (world st) = (Ok output0, w1) ->
  (forall e w2,
      exec shell ("docker pull " ++ image options) w1 = (Throw e, w2) ->
      fst (l_pullImage st) = Throw e)
  /\ (forall out w2 output1 w3,
      exec shell ("docker pull " ++ image options) w1 = (Ok out, w2) ->
      exec shell "docker images --no-trunc" w2 = (Ok output1, w3) ->
      exists changed,
        l_pullImage st
        = (Ok changed,
           logged "pullImage: done"
             (called st [CExec "docker images --no-trunc";
                         CExec ("docker pull " ++ image options);
                         CExec "docker images --no-trunc"] w3))
        /\ (changed = true <-> image_id_in output1 <> image_id_in output0)).
Proof.
  intros H0. split.
  - intros e w2 Hpull.
    unfold Legacy.pullImage, try_finally. unfold bind at 1.
    rewrite legacy_getImageId_run, H0.
    unfold bind, Legacy.co_exec, call, called. cbn [world calls console].
    rewrite Hpull. reflexivity.
  - intros out w2 output1 w3 Hpull H1.
    exists (Js.strict_neq (image_id_in output1) (image_id_in output0)). split.
    + unfold Legacy.pullImage, try_finally. unfold bind at 1.
      rewrite legacy_getImageId_run, H0.
      unfold bind at 1. unfold Legacy.co_exec, call, called. cbn [world calls console].
      rewrite Hpull. unfold bind at 1.
      rewrite legacy_getImageId_run. cbn [world calls console]. rewrite H1.
      unfold called, logged. cbn. rewrite <- !app_assoc. reflexivity.
    + apply strict_neq_true.
Qed.

(** X17.  The legacy [stopContainer], once [docker ps] has answered and
    names a container [id] for the configured name, and [docker inspect]
    has answered: text that does not parse is thrown on; an empty array
    makes it throw a [TypeError]; a container that does not run is left
    alone; a running one gets [docker stop id], whose outcome is the
    outcome of the step. *)
Theorem legacy_stopContainer_cases
        (st : State W) (output : string) (w1 : W) (row : Legacy.Row) (id : string)
        (text : string) (w2 : W) :
  exec shell "docker ps --all --no-trunc" (world st) = (Ok output, w1) ->
  container_row output = Some row ->
  Legacy.row_get row "CONTAINER ID" = Some id ->
  id <> "" ->
  exec shell ("docker inspect " ++ id) w1 = (Ok text, w2) ->
  let inspected := called st [CExec "docker ps --all --no-trunc";
                              CExec ("docker inspect " ++ id)] w2 in
  l_stopContainer st
  = match JSON_parse text with
    | Throw e => (Throw e, logged "stopContainer: done" inspected)
    | Ok [] => (Throw Legacy.TypeError_State, logged "stopContainer: done" inspected)
    | Ok (container :: _) =>
        if State_Running container
        then (match fst (exec shell ("docker stop " ++ id) w2) with
              | Ok _ => Ok tt
              | Throw e => Throw e
              end,
              logged "stopContainer: done"
                (called st [CExec "docker ps --all --no-trunc";
                            CExec ("docker inspect " ++ id);
                            CExec ("docker stop " ++ id)]
                   (snd (exec shell ("docker stop " ++ id) w2))))
        else (Ok tt, logged "stopContainer: done" inspected)
    end.
Proof.
  intros Hps Hrow Hid Hne Hinspect inspected.
  unfold Legacy.stopContainer, try_finally, Legacy.getContainerId. unfold bind at 1 2.
  unfold Legacy.co_exec at 1. unfold call at 1. rewrite Hps, Hrow, Hid.
  cbn [ret Js.truthy_str Js.the].
  destruct (String.eqb_spec id "") as [E | _]; [contradiction |].
  cbn [negb]. unfold Legacy.inspectContainer. unfold bind at 1 2.
  unfold Legacy.co_exec at 1. unfold call at 1. cbn [world calls console].
  rewrite Hinspect.
  destruct (JSON_parse text) as [[|container rest] | e];
    cbn [throw ret nth_error console_log world calls console].
  - unfold logged, inspected, called. cbn. rewrite <- !app_assoc. reflexivity.
  - destruct (State_Running container); cbn [negb ret console_log world calls console].
    + unfold bind, Legacy.co_exec, call. cbn [world calls console].
      destruct (exec shell ("docker stop " ++ id) w2) as [[out | e] w3];
        unfold logged, called; cbn; rewrite <- !app_assoc; reflexivity.
    + unfold logged, inspected, called. cbn. rewrite <- !app_assoc. reflexivity.
  - unfold logged, inspected, called. cbn. rewrite <- !app_assoc. reflexivity.
Qed.

(** X18.  The legacy lifecycle steps do nothing when [docker ps] shows
    no row for the configured name: [stopContainer] and [removeContainer]
    return after that one command. *)
Theorem legacy_steps_skip_missing_container (st : State W) (output : string) (w1 : W) :
  exec shell "docker ps --all --no-trunc" (world st) = (Ok output, w1) ->
  container_row output = None ->
  l_stopContainer st
  = (Ok tt, logged "stopContainer: done" (called st [CExec "docker ps --all --no-trunc"] w1))
  /\ l_removeContainer st
     = (Ok tt,
        logged "removeContainer: done" (called st [CExec "docker ps --all --no-trunc"] w1)).
Proof.
  intros Hps Hrow. split.
  - unfold Legacy.stopContainer, try_finally, Legacy.getContainerId. unfold bind at 1 2.
    unfold Legacy.co_exec at 1. unfold call at 1. rewrite Hps, Hrow. reflexivity.
  - unfold Legacy.removeContainer, try_finally, Legacy.getContainerId. unfold bind at 1 2.
    unfold Legacy.co_exec at 1. unfold call at 1. rewrite Hps, Hrow. reflexivity.
Qed.

(** X19.  The legacy pass: when the pull reports a change it is
    [stopContainer], [removeContainer], [runImage] in that order, the
    first that throws ending it; there is no collection of old images.
    When the pull reports no change the pass ends at once, and [main] then
    only binds the port if asked to: it starts no container even if none
    exists. *)
Theorem legacy_redeploy_steps (st s1 : State W) (changed : bool) :
  l_pullImage st = (Ok changed, s1) ->
  if changed then
    l_redeploy st
    = match l_stopContainer s1 with
      | (Throw e, s2) => (Throw e, s2)
      | (Ok _, s2) =>
          match l_removeContainer s2 with
          | (Throw e, s3) => (Throw e, s3)
          | (Ok _, s3) => l_runImage s3
          end
      end
  else
    l_redeploy st = (Ok tt, s1)
    /\ exists st',
         l_main st = (Ok tt, st')
         /\ world st' = world s1
         /\ calls st'
            = (calls s1 ++ (if wants_listener options
                            then [CListen (Legacy.determineImagePort options)]
                            else []))%list.
Proof.
  intros Hpull. destruct changed.
  - unfold Legacy.redeploy, bind. rewrite Hpull.
    destruct (l_stopContainer s1) as [[[] | e2] s2]; [| reflexivity].
    destruct (l_removeContainer s2) as [[[] | e3] s3]; reflexivity.
  - assert (Hr : l_redeploy st = (Ok tt, s1))
      by (unfold Legacy.redeploy, bind; rewrite Hpull; reflexivity).
    split; [exact Hr |].
    unfold Legacy.main, bind. rewrite Hr. unfold wants_listener.
    destruct (restart options) as [r |];
      [destruct (Js.includes r "image-push") |];
      eexists; (split; [reflexivity |]); cbn; rewrite ?app_nil_r; auto.
Qed.

(** X20.  The legacy webhook, on a POST whose URL is exactly its path:
    if the body has no [repository] it throws a [TypeError] before any
    call, so nothing is posted to the callback and no status is set;
    otherwise it answers 204 and posts the outcome to the callback as its
    last call: when [repository.repo_name] is not the configured image
    name that post is its only call and says [error]; when it is, the
    pass is run and the post says [success] if it returned, [error] if it
    threw.  Any other request is passed on. *)
Theorem legacy_webhook_responds_204 (req : Request) (st : State W) :
  (req_method req = "POST" /\ req_url req = WEBHOOK_URL ->
   match repository (req_body req) with
   | None => l_webhook req st = (Throw Api.TypeError_repo_name, st)
   | Some repo =>
       exists state st',
         l_webhook req st = (Ok (Status 204), st')
         /\ (repo_name repo <> Some (Legacy.getImageName options) ->
             state = "error"
             /\ calls st'
                = (calls st ++ [CRequest (callback_url (req_body req)) state])%list)
         /\ (repo_name repo = Some (Legacy.getImageName options) ->
             state = match fst (l_redeploy st) with
                     | Ok _ => "success"
                     | Throw _ => "error"
                     end
             /\ calls st' = (calls (snd (l_redeploy st))
                             ++ [CRequest (callback_url (req_body req)) state])%list)
   end)
  /\ (req_method req <> "POST" \/ req_url req <> WEBHOOK_URL ->
      l_webhook req st = (Ok Next, st)).
Proof.
  assert (Hpost : forall u s x, exists x',
             Legacy.post_callback http u s x = (Ok tt, x')
             /\ calls x' = (calls x ++ [CRequest u s])%list).
  { intros u s x. unfold Legacy.post_callback, call.
    destruct (http u s (world x)) as [[err |] w']; eexists; split; reflexivity. }
  split.
  - intros [Hm Hu].
    assert (Ht : String.eqb (req_method req) "POST" && String.eqb (req_url req) WEBHOOK_URL
                 = true) by (rewrite Hm, Hu; reflexivity).
    unfold Legacy.webhook. rewrite Ht.
    destruct (repository (req_body req)) as [repo |]; [| reflexivity].
    destruct (Js.strict_neq (repo_name repo) (Some (Legacy.getImageName options)))
      eqn:Hcmp.
    + apply strict_neq_true in Hcmp.
      unfold bind, ret. cbn [console_error].
      match goal with
      | |- context [Legacy.post_callback http ?u ?s ?x] =>
          destruct (Hpost u s x) as (st' & -> & Hc)
      end.
      exists "error", st'. cbn [calls] in Hc. repeat split; auto; contradiction.
    + apply strict_neq_false in Hcmp.
      destruct (l_redeploy st) as [r s1] eqn:Hre.
      unfold bind, try_catch. rewrite Hre.
      destruct r as [[] | e]; cbn [ret console_error fst snd].
      * destruct (Hpost (callback_url (req_body req)) "success" s1) as (st' & -> & Hc).
        exists "success", st'. repeat split; auto; contradiction.
      * match goal with
        | |- context [Legacy.post_callback http ?u ?s ?x] =>
            destruct (Hpost u s x) as (st' & -> & Hc)
        end.
        exists "error", st'. cbn [calls] in Hc. repeat split; auto; contradiction.
  - intros H. unfold Legacy.webhook.
    destruct (String.eqb_spec (req_method req) "POST") as [Hm | Hm];
      destruct (String.eqb_spec (req_url req) WEBHOOK_URL) as [Hu | Hu];
      try reflexivity.
    destruct H; contradiction.
Qed.

End LegacyFacts.

(* ===================================================================== *)
(** ** The further properties at work on concrete inputs *)
(* ===================================================================== *)

(** X2 on a stopped [web]: nothing is stopped. *)
Lemma stopContainer_only_stops_running_witness :
  let st := start_state Scenario2.world_stopped in
  listContainers Sim.docker true (world st)
  = (Ok [Sim.c_desc Scenario2.web_stopped], world st)
  /\ Api.stopContainer Sim.docker Scenario.cfg st
     = (Ok tt,
        logged "stopContainer: done"
          (called st [CListContainers true; CInspect "c0"] (world st))).
Proof.
  intros st.
  assert (H0 : listContainers Sim.docker true (world st)
               = (Ok [Sim.c_desc Scenario2.web_stopped], world st)) by reflexivity.
  split; [exact H0 |].
  refine (proj2 (stopContainer_only_stops_running Sim.docker Scenario.cfg st _ _ H0)
            (Sim.c_desc Scenario2.web_stopped) {| State_Running := false |} (world st)
            eq_refl _ eq_refl).
  discriminate.
Defined.

(** X3 on a running [web]: its removal is asked for, and the simulated
    daemon refuses it. *)
Lemma removeContainer_removes_the_named_one_witness :
  let st := start_state Scenario.world_new_build in
  listContainers Sim.docker true (world st)
  = (Ok [Sim.c_desc Sim.web_running], world st)
  /\ Api.removeContainer Sim.docker Scenario.cfg st
     = (Throw (Error "cannot remove a running container"),
        logged "removeContainer: done"
          (called st [CListContainers true; CRemove "c0"] (world st))).
Proof.
  intros st.
  assert (H0 : listContainers Sim.docker true (world st)
               = (Ok [Sim.c_desc Sim.web_running], world st)) by reflexivity.
  split; [exact H0 |].
  refine (proj2 (removeContainer_removes_the_named_one Sim.docker Scenario.cfg st _ _ H0)
            (Sim.c_desc Sim.web_running) eq_refl _).
  discriminate.
Defined.

(** X4 on a daemon that refuses to create containers. *)
Lemma runImage_creates_then_starts_witness :
  let st := start_state Scenario.world_create_fails in
  detach Scenario.cfg = true
  /\ Api.runImage Sim.docker Scenario.cfg st
     = (Throw (Error "no space left on device"),
        logged "runImage: done"
          (called st [CCreateContainer (Api.createOptions Scenario.cfg)] (world st))).
Proof.
  intros st. split; [reflexivity |].
  exact (runImage_creates_then_starts Sim.docker Scenario.cfg st eq_refl).
Defined.

(** X9: [on-failure] and [image-push] change nothing. *)
Lemma restart_policies_other_than_always_are_ignored_witness :
  (In "always" ["on-failure"; "image-push"] <-> In "always" [])
  /\ Api.startOptions (set_restart Scenario.cfg (Some ["on-failure"; "image-push"]))
     = Api.startOptions (set_restart Scenario.cfg (Some [])).
Proof.
  assert (H : In "always" ["on-failure"; "image-push"] <-> In "always" []).
  { split; [| intros []].
    intros [E | [E | []]]; discriminate. }
  split; [exact H |].
  exact (proj1 (proj2 (restart_policies_other_than_always_are_ignored Scenario.cfg _ _ H))).
Defined.

(** X10 on a GET of the root path. *)
Lemma webhook_passes_other_requests_witness :
  (req_method Scenario2.get_root <> "POST" \/ req_url Scenario2.get_root <> WEBHOOK_URL)
  /\ Api.webhook Sim.docker Scenario.cfg Scenario2.get_root
       (start_state Scenario.world_new_build)
     = (Ok Next, start_state Scenario.world_new_build).
Proof.
  assert (H : req_method Scenario2.get_root <> "POST"
              \/ req_url Scenario2.get_root <> WEBHOOK_URL) by (left; discriminate).
  split; [exact H |].
  exact (webhook_passes_other_requests Sim.docker Scenario.cfg _ _ H).
Defined.

(** X12 with an unchanged build and no container: [main] creates and
    starts one. *)
Lemma main_starts_only_a_missing_container_witness :
  let st := start_state Scenario2.world_no_container in
  let s1 := snd (Api.pullImage Sim.docker Scenario.cfg st) in
  Api.pullImage Sim.docker Scenario.cfg st = (Ok false, s1)
  /\ listContainers Sim.docker true (world s1) = (Ok [], world s1)
  /\ exists st',
       Api.main Sim.docker Scenario.cfg st = (Ok tt, st')
       /\ calls st'
          = [CListImages; CPull "myorg/app:v1" None; CListImages; CListContainers true;
             CCreateContainer (Api.createOptions Scenario.cfg);
             CStart "c1" (Api.startOptions Scenario.cfg)].
Proof.
  intros st s1.
  assert (H1 : Api.pullImage Sim.docker Scenario.cfg st = (Ok false, s1))
    by (vm_compute; reflexivity).
  assert (H2 : listContainers Sim.docker true (world s1) = (Ok [], world s1))
    by (vm_compute; reflexivity).
  split; [exact H1 |]. split; [exact H2 |].
  pose proof (proj2 (main_starts_only_a_missing_container
                       Sim.docker Scenario.cfg st s1 [] (world s1) H1 H2) eq_refl) as H.
  destruct (Api.runImage Sim.docker Scenario.cfg
              (called s1 [CListContainers true] (world s1))) as [[[] | e] s3] eqn:Hrun.
  - destruct H as (st' & Hm & _ & Hc). exists st'. split; [exact Hm |].
    rewrite Hc. apply (f_equal snd) in Hrun. cbn [snd] in Hrun. rewrite <- Hrun.
    vm_compute. reflexivity.
  - exfalso. apply (f_equal fst) in Hrun. vm_compute in Hrun. discriminate.
Defined.

(** X13 on a reference that names a registry with a port: the name is cut
    at the colon of the port. *)
Lemma image_ref_splits_at_first_colon_witness :
  Js.indexOf "localhost" ":" = None
  /\ image Scenario2.cfg_registry_port = ("localhost" ++ ":" ++ "5000/app:v1")%string
  /\ Api.getImageName Scenario2.cfg_registry_port = "localhost"
  /\ Legacy.getImageName Scenario2.cfg_registry_port = "localhost"
  /\ Legacy.getImageTag Scenario2.cfg_registry_port = "5000/app:v1".
Proof.
  split; [reflexivity |]. split; [reflexivity |].
  exact (image_ref_splits_at_first_colon Scenario2.cfg_registry_port
           "localhost" "5000/app:v1" eq_refl eq_refl).
Defined.

(** X16 on the simulated shell: the image table changes with the pull. *)
Lemma legacy_pullImage_compares_ids_witness :
  exec LegacySim.shell "docker images --no-trunc" (world (start_state 0%nat))
  = (Ok "IMAGES before", 0%nat)
  /\ fst (Legacy.pullImage LegacySim.shell LegacySim.shellParser LegacySim.cfg
            (start_state 0%nat))
     = Ok true.
Proof.
  assert (H0 : exec LegacySim.shell "docker images --no-trunc" (world (start_state 0%nat))
               = (Ok "IMAGES before", 0%nat)) by reflexivity.
  split; [exact H0 |].
  destruct (proj2 (legacy_pullImage_compares_ids LegacySim.shell LegacySim.shellParser
                     LegacySim.cfg (start_state 0%nat) _ _ H0)
              "" 1%nat "IMAGES after" 1%nat eq_refl eq_refl)
    as (changed & Hp & Hiff).
  rewrite Hp. cbn [fst]. f_equal. apply Hiff. vm_compute. discriminate.
Defined.

(** X17 on the simulated shell: [web] runs and is stopped. *)
Lemma legacy_stopContainer_cases_witness :
  let st := start_state 0%nat in
  exec LegacySim.shell "docker ps --all --no-trunc" (world st) = (Ok "PS", 0%nat)
  /\ Legacy.lodash_find (LegacySim.shellParser "PS") [("NAMES", name LegacySim.cfg)]
     = Some [("CONTAINER ID", "c0"); ("NAMES", "web")]
  /\ exec LegacySim.shell ("docker inspect " ++ "c0") 0%nat = (Ok "INSPECT", 0%nat)
  /\ Legacy.stopContainer LegacySim.shell LegacySim.shellParser LegacySim.cfg
       LegacySim.JSON_parse st
     = (Ok tt,
        logged "stopContainer: done"
          (called st [CExec "docker ps --all --no-trunc"; CExec "docker inspect c0";
                      CExec "docker stop c0"] 0%nat)).
Proof.
  intros st. repeat (split; [reflexivity |]).
  refine (eq_trans
            (legacy_stopContainer_cases LegacySim.shell LegacySim.shellParser
               LegacySim.JSON_parse LegacySim.cfg st "PS" 0%nat
               [("CONTAINER ID", "c0"); ("NAMES", "web")] "c0" "INSPECT" 0%nat
               eq_refl eq_refl eq_refl _ eq_refl) _).
  - discriminate.
  - reflexivity.
Defined.

(** X18 on a configuration whose container [docker ps] does not show. *)
Lemma legacy_steps_skip_missing_container_witness :
  let st := start_state 0%nat in
  exec LegacySim.shell "docker ps --all --no-trunc" (world st) = (Ok "PS", 0%nat)
  /\ Legacy.lodash_find (LegacySim.shellParser "PS") [("NAMES", name LegacySim.cfg_absent)]
     = None
  /\ Legacy.removeContainer LegacySim.shell LegacySim.shellParser LegacySim.cfg_absent st
     = (Ok tt,
        logged "removeContainer: done"
          (called st [CExec "docker ps --all --no-trunc"] 0%nat)).
Proof.
  intros st. repeat (split; [reflexivity |]).
  exact (proj2 (legacy_steps_skip_missing_container LegacySim.shell LegacySim.shellParser
                  LegacySim.JSON_parse LegacySim.cfg_absent st "PS" 0%nat
                  eq_refl eq_refl)).
Defined.

(** X19 on the simulated shell, once the new build has been pulled: no
    change, and [main] gives no further command. *)
Lemma legacy_redeploy_steps_witness :
  let st := start_state 1%nat in
  let s1 := snd (Legacy.pullImage LegacySim.shell LegacySim.shellParser LegacySim.cfg st) in
  Legacy.pullImage LegacySim.shell LegacySim.shellParser LegacySim.cfg st = (Ok false, s1)
  /\ Legacy.redeploy LegacySim.shell LegacySim.shellParser LegacySim.cfg
       LegacySim.JSON_parse st
     = (Ok tt, s1).
Proof.
  intros st s1.
  assert (H : Legacy.pullImage LegacySim.shell LegacySim.shellParser LegacySim.cfg st
              = (Ok false, s1)) by (vm_compute; reflexivity).
  split; [exact H |].
  exact (proj1 (legacy_redeploy_steps LegacySim.shell LegacySim.shellParser
                  LegacySim.JSON_parse LegacySim.cfg st s1 false H)).
Defined.

(** X21 on a daemon that cannot reach the registry: the pass throws after
    the listing and the pull, and [web] is left running. *)
Lemma check_failed_pull_aborts_witness :
  let st := start_state Scenario2.world_pull_fails in
  let s1 := snd (Api.pullImage Sim.docker Scenario.cfg st) in
  Api.pullImage Sim.docker Scenario.cfg st = (Throw (Error "connect ECONNREFUSED"), s1)
  /\ Api.check Sim.docker Scenario.cfg st = (Throw (Error "connect ECONNREFUSED"), s1)
  /\ calls s1 = [CListImages; CPull "myorg/app:v1" None]
  /\ Sim.containers (world s1) = [Sim.web_running].
Proof.
  intros st s1.
  assert (H : Api.pullImage Sim.docker Scenario.cfg st
              = (Throw (Error "connect ECONNREFUSED"), s1)) by (vm_compute; reflexivity).
  split; [exact H |].
  split; [exact (proj1 (check_failed_pull_aborts Sim.docker Scenario.cfg st s1 _ H)) |].
  split; vm_compute; reflexivity.
Defined.
